(** * Krylov solver entry points of the jax backend

    A shallow embedding of [JaxBackend.eigs], [JaxBackend.eigsh_lanczos] and
    [JaxBackend.gmres] (tensornetwork/backends/jax/jax_backend.py) together
    with the two module-level dictionaries [_CACHED_MATVECS] and
    [_CACHED_FUNCTIONS] they share.

    Python integers are [Z]; dictionaries are [gmap]s; a function object is
    its identity (Python's [id]) paired with its definition; the sequence of
    statements of a method is a computation in a state-and-exception monad
    over the two dictionaries.  The iteration routines themselves live in
    [jitted_functions], which is outside these sources: a solver's result is
    the application of such a routine to the arguments the solver prepared,
    followed by whatever the solver does with the reply. *)

From Stdlib Require Import QArith.
From stdpp Require Import gmap strings list fin_maps.
Close Scope Q_scope.

(** ** Values *)

Inductive DType := float32 | float64 | complex64 | complex128 | int32 | int64.

Global Instance DType_eq_dec : EqDecision DType.
Proof. solve_decision. Defined.

(** The contents of an array play no role in the entry points; they are kept
    symbolic: supplied by the caller, all zeros, or drawn from a normal
    distribution. *)
Inductive Entries := supplied (handle : positive) | all_zeros | normal_draw.

Record ndarray := { shape : list nat; dtype : DType; entries : Entries }.

(** [t.size]: the number of elements, the product of the dimensions. *)
Global Instance ndarray_size : Size ndarray := λ t, foldr Nat.mul 1%nat (shape t).

(** What a caller may pass where a tensor is expected. *)
Inductive PyObj :=
| jax_array (a : ndarray)
| numpy_array (a : ndarray)
| py_int (z : Z)
| py_object (type_name : string).

Definition type_of (o : PyObj) : string :=
  match o with
  | jax_array _ => "jax.Array"
  | numpy_array _ => "numpy.ndarray"
  | py_int _ => "int"
  | py_object n => n
  end.

(** [isinstance(o, jnp.ndarray)] *)
Definition isinstance_jnp_ndarray (o : PyObj) : bool :=
  match o with jax_array _ => true | _ => false end.

(** Python floats: the finite ones are rationals, plus the three specials. *)
Inductive PyFloat := finite (q : Q) | pos_inf | neg_inf | nan.

(** [x < 0] on floats; every comparison with [nan] is false. *)
Definition lt_zero (x : PyFloat) : bool :=
  match x with
  | finite q => negb (Qle_bool 0 q)
  | neg_inf => true
  | pos_inf | nan => false
  end.

(** Truth value of an [Optional[bool]]: [None] is falsy. *)
Definition truthy (b : option bool) : bool := default false b.

(** A function object: hashing and equality of functions go by identity, so
    [py_id] is what the dictionaries see; [definition] is the formal
    definition, which two distinct function objects may share. *)
Record Operator := { py_id : positive; definition : string }.

Global Instance Operator_eq_dec : EqDecision Operator.
Proof. solve_decision. Defined.

(** Callables built from an operator by [libjax.jit] and
    [libjax.tree_util.Partial]. *)
Inductive Callable :=
| function (A : Operator)
| jit (f : Callable)
| Partial (f : Callable).

Global Instance Callable_eq_dec : EqDecision Callable.
Proof. solve_decision. Defined.

(** The iteration routines, named after the factory of [jitted_functions]
    that builds each of them. *)
Inductive Routine :=
| _implicitly_restarted_arnoldi
| _generate_jitted_eigsh_lanczos
| gmres_wrapper.

Global Instance Routine_eq_dec : EqDecision Routine.
Proof. solve_decision. Defined.

(** ** Exceptions *)

(** The messages of the source, with the values they are formatted with. *)
Inductive Message :=
| which_not_supported (which : string)
| num_krylov_vecs_ge_numeig_required
| shape_and_dtype_required
| expected_jax_array (got : string)
| numeig_needs_reorthogonalize (numeig : Z)
| x0_shape_must_match (x0_shape b_shape : list nat)
| x0_dtype_must_match (x0_dtype b_dtype : DType)
| num_krylov_vectors_must_be_in (num_krylov_vectors : Z) (b_size : nat)
| tol_must_be_positive (tol : PyFloat)
| atol_must_be_positive (atol : PyFloat)
| M_not_supported
| A_kwargs_not_supported.

Inductive Exception :=
| ValueError (m : Message)
| TypeError (m : Message)
| NotImplementedError (m : Message)
| KeyError.

Definition is_ValueError (e : Exception) : bool :=
  match e with ValueError _ => true | _ => false end.

Definition is_TypeError (e : Exception) : bool :=
  match e with TypeError _ => true | _ => false end.

Definition is_NotImplementedError (e : Exception) : bool :=
  match e with NotImplementedError _ => true | _ => false end.

(** ** Process state *)

(** The calls that wrap or compile, in the order they are made:
    [libjax.jit], [libjax.tree_util.Partial] and the factories of
    [jitted_functions]. This is what compilation-count instrumentation
    observes. *)
Inductive Event :=
| libjax_jit (f : Callable)
| tree_util_Partial (f : Callable)
| build (r : Routine).

Global Instance Event_eq_dec : EqDecision Event.
Proof. solve_decision. Defined.

Record State := {
  _CACHED_MATVECS : gmap positive Callable;
  _CACHED_FUNCTIONS : gmap string Routine;
  jax_calls : list Event
}.

(** A freshly started process: both dictionaries are empty. *)
Definition startup : State :=
  {| _CACHED_MATVECS := ∅; _CACHED_FUNCTIONS := ∅; jax_calls := [] |}.

(** ** The monad of method bodies *)

(** A raised exception keeps the state reached so far. *)
Definition Py (A : Type) : Type := State → (Exception + A) * State.

Global Instance Py_ret : MRet Py := λ A a st, (inr a, st).

Global Instance Py_bind : MBind Py := λ A B k m st,
  match m st with
  | (inl e, st') => (inl e, st')
  | (inr a, st') => k a st'
  end.

Definition raise {A} (e : Exception) : Py A := λ st, (inl e, st).

(** [if c: raise e] *)
Definition raise_if (c : bool) (e : Exception) : Py unit :=
  if c then raise e else mret tt.

(** [if c: body] *)
Definition when (c : bool) (body : Py unit) : Py unit :=
  if c then body else mret tt.

Definition call (ev : Event) : Py unit := λ st,
  (inr tt, {| _CACHED_MATVECS := _CACHED_MATVECS st;
              _CACHED_FUNCTIONS := _CACHED_FUNCTIONS st;
              jax_calls := jax_calls st ++ [ev] |}).

(** [libjax.jit(f)] *)
Definition libjax_jit_ (f : Callable) : Py Callable :=
  call (libjax_jit f);; mret (jit f).

(** [libjax.tree_util.Partial(f)] *)
Definition tree_util_Partial_ (f : Callable) : Py Callable :=
  call (tree_util_Partial f);; mret (Partial f).

(** [jitted_functions.<factory>(libjax)] *)
Definition jitted_functions (r : Routine) : Py Routine :=
  call (build r);; mret r.

(** [A not in _CACHED_MATVECS] *)
Definition not_in_CACHED_MATVECS (A : Operator) : Py bool := λ st,
  (inr (bool_decide (_CACHED_MATVECS st !! py_id A = None)), st).

(** [_CACHED_MATVECS[A] = f] *)
Definition set_CACHED_MATVECS (A : Operator) (f : Callable) : Py unit := λ st,
  (inr tt, {| _CACHED_MATVECS := <[py_id A := f]> (_CACHED_MATVECS st);
              _CACHED_FUNCTIONS := _CACHED_FUNCTIONS st;
              jax_calls := jax_calls st |}).

(** [_CACHED_MATVECS[A]] *)
Definition get_CACHED_MATVECS (A : Operator) : Py Callable := λ st,
  match _CACHED_MATVECS st !! py_id A with
  | Some f => (inr f, st)
  | None => (inl KeyError, st)
  end.

(** [name not in _CACHED_FUNCTIONS] *)
Definition not_in_CACHED_FUNCTIONS (name : string) : Py bool := λ st,
  (inr (bool_decide (_CACHED_FUNCTIONS st !! name = None)), st).

(** [_CACHED_FUNCTIONS[name] = r] *)
Definition set_CACHED_FUNCTIONS (name : string) (r : Routine) : Py unit := λ st,
  (inr tt, {| _CACHED_MATVECS := _CACHED_MATVECS st;
              _CACHED_FUNCTIONS := <[name := r]> (_CACHED_FUNCTIONS st);
              jax_calls := jax_calls st |}).

(** [_CACHED_FUNCTIONS[name]] *)
Definition get_CACHED_FUNCTIONS (name : string) : Py Routine := λ st,
  match _CACHED_FUNCTIONS st !! name with
  | Some r => (inr r, st)
  | None => (inl KeyError, st)
  end.

(** ** Array constructors of the backend *)

(** [self.randn(shape, dtype)]: whichever branch draws the numbers, the
    result is a jax array of that shape and dtype ([float64] when no dtype
    is given). *)
Definition randn (shape : list nat) (dtype : option DType) : ndarray :=
  Build_ndarray shape (default float64 dtype) normal_draw.

(** [self.zeros(shape, dtype)] *)
Definition zeros (shape : list nat) (dtype : option DType) : ndarray :=
  Build_ndarray shape (default float64 dtype) all_zeros.

(** ** Applications of an iteration routine *)

Inductive Application :=
| apply_arnoldi (f : Routine) (matvec : Callable) (args : list PyObj)
    (initial_state : PyObj) (num_krylov_vecs numeig : Z) (which : string)
    (tol : PyFloat) (maxiter : Z)
| apply_lanczos (f : Routine) (matvec : Callable) (args : list PyObj)
    (initial_state : PyObj) (num_krylov_vecs numeig : Z) (delta : PyFloat)
    (reorthogonalize : option bool)
| apply_gmres (f : Routine) (matvec : Callable) (A_args : list PyObj)
    (b x0 : ndarray) (tol atol : PyFloat) (num_krylov_vectors : Z)
    (maxiter : option Z).

(** What [gmres_f] hands back: [x, _, n_iter, converged]. *)
Record GmresReply := {
  reply_x : ndarray;
  reply_unused : PyFloat;
  n_iter : Z;
  converged : bool
}.

(** The eigenvalues and eigenvectors an eigensolver routine hands back. *)
Definition EigPairs : Type := list PyObj * list PyObj.

(** A method that ends in a routine application: the application, and what
    the method returns for each reply of the routine. *)
Record Applied (Reply R : Type) := {
  application : Application;
  returns : Reply → R
}.
Arguments application {_ _} _.
Arguments returns {_ _} _ _.

(** ** JaxBackend.eigs *)

Definition eigs (A : Operator) (args : option (list PyObj))
    (initial_state : option PyObj) (shape : option (list nat))
    (dtype : option DType) (num_krylov_vecs numeig : Z) (tol : PyFloat)
    (which : string) (maxiter : Z) : Py (Applied EigPairs EigPairs) :=
  let args := default [] args in
  raise_if (bool_decide (which ∈ ["SI"; "LI"; "SM"; "SR"]))
    (ValueError (which_not_supported which));;
  raise_if (bool_decide (numeig > num_krylov_vecs)%Z)
    (ValueError num_krylov_vecs_ge_numeig_required);;
  initial_state ←
    match initial_state with
    | None =>
        match shape, dtype with
        | Some shape, Some dtype => mret (jax_array (randn shape (Some dtype)))
        | _, _ => raise (ValueError shape_and_dtype_required)
        end
    | Some v => mret v
    end;
  raise_if (negb (isinstance_jnp_ndarray initial_state))
    (TypeError (expected_jax_array (type_of initial_state)));;
  absent ← not_in_CACHED_MATVECS A;
  when absent (
    jitted ← libjax_jit_ (function A);
    wrapped ← tree_util_Partial_ jitted;
    set_CACHED_MATVECS A wrapped);;
  absent ← not_in_CACHED_FUNCTIONS "imp_arnoldi";
  when absent (
    imp_arnoldi ← jitted_functions _implicitly_restarted_arnoldi;
    set_CACHED_FUNCTIONS "imp_arnoldi" imp_arnoldi);;
  imp_arnoldi ← get_CACHED_FUNCTIONS "imp_arnoldi";
  matvec ← get_CACHED_MATVECS A;
  mret {| application := apply_arnoldi imp_arnoldi matvec args initial_state
                           num_krylov_vecs numeig which tol maxiter;
          returns := λ pairs : EigPairs, pairs |}.

(** ** JaxBackend.eigsh_lanczos *)

(** [tol] and [ndiag] are accepted and not used. *)
Definition eigsh_lanczos (A : Operator) (args : option (list PyObj))
    (initial_state : option PyObj) (shape : option (list nat))
    (dtype : option DType) (num_krylov_vecs numeig : Z) (tol delta : PyFloat)
    (ndiag : Z) (reorthogonalize : option bool)
    : Py (Applied EigPairs EigPairs) :=
  let args := default [] args in
  raise_if (bool_decide (num_krylov_vecs < numeig)%Z)
    (ValueError num_krylov_vecs_ge_numeig_required);;
  raise_if (bool_decide (numeig > 1)%Z && negb (truthy reorthogonalize))
    (ValueError (numeig_needs_reorthogonalize numeig));;
  initial_state ←
    match initial_state with
    | None =>
        match shape, dtype with
        | Some shape, Some dtype => mret (jax_array (randn shape (Some dtype)))
        | _, _ => raise (ValueError shape_and_dtype_required)
        end
    | Some v => mret v
    end;
  raise_if (negb (isinstance_jnp_ndarray initial_state))
    (TypeError (expected_jax_array (type_of initial_state)));;
  absent ← not_in_CACHED_MATVECS A;
  when absent (
    wrapped ← tree_util_Partial_ (function A);
    set_CACHED_MATVECS A wrapped);;
  absent ← not_in_CACHED_FUNCTIONS "eigsh_lanczos";
  when absent (
    eigsh_lanczos ← jitted_functions _generate_jitted_eigsh_lanczos;
    set_CACHED_FUNCTIONS "eigsh_lanczos" eigsh_lanczos);;
  eigsh_lanczos ← get_CACHED_FUNCTIONS "eigsh_lanczos";
  matvec ← get_CACHED_MATVECS A;
  mret {| application := apply_lanczos eigsh_lanczos matvec args initial_state
                           num_krylov_vecs numeig delta reorthogonalize;
          returns := λ pairs : EigPairs, pairs |}.

(** ** JaxBackend.gmres *)

(** The last five lines of [gmres]: the status code made from the reply. *)
Definition gmres_return (reply : GmresReply) : ndarray * Z :=
  let info := if converged reply then 0%Z else n_iter reply in
  (reply_x reply, info).

Definition gmres (A_mv : Operator) (b : ndarray) (A_args : option (list PyObj))
    (A_kwargs : option (list (string * PyObj))) (x0 : option ndarray)
    (tol : PyFloat) (atol : option PyFloat) (num_krylov_vectors : option Z)
    (maxiter : option Z) (M : option Operator)
    : Py (Applied GmresReply (ndarray * Z)) :=
  match x0 with
  | Some x0 => raise_if (bool_decide (shape x0 ≠ shape b))
                 (ValueError (x0_shape_must_match (shape x0) (shape b)))
  | None => mret tt
  end;;
  match x0 with
  | Some x0 => raise_if (bool_decide (dtype x0 ≠ dtype b))
                 (ValueError (x0_dtype_must_match (dtype x0) (dtype b)))
  | None => mret tt
  end;;
  let num_krylov_vectors := default (Z.of_nat (size b)) num_krylov_vectors in
  raise_if (bool_decide (num_krylov_vectors ≤ 0)%Z
            || bool_decide (num_krylov_vectors > Z.of_nat (size b))%Z)
    (ValueError (num_krylov_vectors_must_be_in num_krylov_vectors (size b)));;
  raise_if (lt_zero tol) (ValueError (tol_must_be_positive tol));;
  let atol := default tol atol in
  raise_if (lt_zero atol) (ValueError (atol_must_be_positive atol));;
  raise_if (bool_decide (M ≠ None)) (NotImplementedError M_not_supported);;
  raise_if (bool_decide (A_kwargs ≠ None))
    (NotImplementedError A_kwargs_not_supported);;
  let A_args := default [] A_args in
  let x0 := default (zeros (shape b) (Some (dtype b))) x0 in
  absent ← not_in_CACHED_MATVECS A_mv;
  when absent (
    wrapped ← tree_util_Partial_ (function A_mv);
    set_CACHED_MATVECS A_mv wrapped);;
  absent ← not_in_CACHED_FUNCTIONS "gmres_f";
  when absent (
    gmres_f ← jitted_functions gmres_wrapper;
    set_CACHED_FUNCTIONS "gmres_f" gmres_f);;
  gmres_f ← get_CACHED_FUNCTIONS "gmres_f";
  matvec ← get_CACHED_MATVECS A_mv;
  mret {| application := apply_gmres gmres_f matvec A_args b x0 tol atol
                           num_krylov_vectors maxiter;
          returns := gmres_return |}.

(** ** Sequences of solver calls *)

(** One call of an entry point with its arguments. *)
Inductive SolverCall :=
| call_eigs (A : Operator) (args : option (list PyObj))
    (initial_state : option PyObj) (shape : option (list nat))
    (dtype : option DType) (num_krylov_vecs numeig : Z) (tol : PyFloat)
    (which : string) (maxiter : Z)
| call_eigsh_lanczos (A : Operator) (args : option (list PyObj))
    (initial_state : option PyObj) (shape : option (list nat))
    (dtype : option DType) (num_krylov_vecs numeig : Z) (tol delta : PyFloat)
    (ndiag : Z) (reorthogonalize : option bool)
| call_gmres (A_mv : Operator) (b : ndarray) (A_args : option (list PyObj))
    (A_kwargs : option (list (string * PyObj))) (x0 : option ndarray)
    (tol : PyFloat) (atol : option PyFloat) (num_krylov_vectors : option Z)
    (maxiter : option Z) (M : option Operator).

(** The operator a call is made with. *)
Definition operator (c : SolverCall) : Operator :=
  match c with
  | call_eigs A _ _ _ _ _ _ _ _ _ => A
  | call_eigsh_lanczos A _ _ _ _ _ _ _ _ _ _ => A
  | call_gmres A_mv _ _ _ _ _ _ _ _ _ => A_mv
  end.

(** The key and the factory of the routine a call runs. *)
Definition algorithm (c : SolverCall) : string * Routine :=
  match c with
  | call_eigs _ _ _ _ _ _ _ _ _ _ => ("imp_arnoldi", _implicitly_restarted_arnoldi)
  | call_eigsh_lanczos _ _ _ _ _ _ _ _ _ _ _ =>
      ("eigsh_lanczos", _generate_jitted_eigsh_lanczos)
  | call_gmres _ _ _ _ _ _ _ _ _ _ => ("gmres_f", gmres_wrapper)
  end.

(** The wrapped form each entry point stores for a new operator. *)
Definition wrapped_form (c : SolverCall) : Callable :=
  match c with
  | call_eigs A _ _ _ _ _ _ _ _ _ => Partial (jit (function A))
  | _ => Partial (function (operator c))
  end.

(** The outcome of a call, forgetting the type of the value returned: the
    exception raised, or the application the call ends in. *)
Definition perform (c : SolverCall) (st : State)
    : (Exception + Application) * State :=
  match c with
  | call_eigs A args initial_state shape dtype num_krylov_vecs numeig tol
      which maxiter =>
      let '(r, st') := eigs A args initial_state shape dtype num_krylov_vecs
                         numeig tol which maxiter st in
      (sum_map id application r, st')
  | call_eigsh_lanczos A args initial_state shape dtype num_krylov_vecs numeig
      tol delta ndiag reorthogonalize =>
      let '(r, st') := eigsh_lanczos A args initial_state shape dtype
                         num_krylov_vecs numeig tol delta ndiag
                         reorthogonalize st in
      (sum_map id application r, st')
  | call_gmres A_mv b A_args A_kwargs x0 tol atol num_krylov_vectors maxiter
      M =>
      let '(r, st') := gmres A_mv b A_args A_kwargs x0 tol atol
                         num_krylov_vectors maxiter M st in
      (sum_map id application r, st')
  end.

(** The callable an application hands to the routine. *)
Definition matvec_of (a : Application) : Callable :=
  match a with
  | apply_arnoldi _ matvec _ _ _ _ _ _ _ => matvec
  | apply_lanczos _ matvec _ _ _ _ _ _ => matvec
  | apply_gmres _ matvec _ _ _ _ _ _ _ => matvec
  end.

(** The routine an application runs. *)
Definition routine_of (a : Application) : Routine :=
  match a with
  | apply_arnoldi f _ _ _ _ _ _ _ _ => f
  | apply_lanczos f _ _ _ _ _ _ _ => f
  | apply_gmres f _ _ _ _ _ _ _ _ => f
  end.

(** The process state after a sequence of calls; a call that raises leaves
    the state it reached, and the process goes on. *)
Definition run (calls : list SolverCall) (st : State) : State :=
  foldl (λ st c, (perform c st).2) st calls.


(** ** Reading the entry points in two stages *)

(** Each entry point first checks its arguments, which involves no state, and
    then goes through the same cache stage.  The definitions below describe
    the two stages separately; the stage lemmas further down prove that the
    entry points, as transcribed above, compute exactly this. *)

(** The argument checks of [eigs]: the exception they raise, or the initial
    state they settle on. *)
Definition eigs_checks (which : string) (numeig num_krylov_vecs : Z)
    (initial_state : option PyObj) (shape : option (list nat))
    (dtype : option DType) : Exception + PyObj :=
  if bool_decide (which ∈ ["SI"; "LI"; "SM"; "SR"])
  then inl (ValueError (which_not_supported which))
  else if bool_decide (numeig > num_krylov_vecs)%Z
  then inl (ValueError num_krylov_vecs_ge_numeig_required)
  else match initial_state, shape, dtype with
       | Some v, _, _ =>
           if isinstance_jnp_ndarray v then inr v
           else inl (TypeError (expected_jax_array (type_of v)))
       | None, Some shape, Some dtype =>
           inr (jax_array (randn shape (Some dtype)))
       | None, _, _ => inl (ValueError shape_and_dtype_required)
       end.

(** The argument checks of [eigsh_lanczos]. *)
Definition eigsh_lanczos_checks (numeig num_krylov_vecs : Z)
    (reorthogonalize : option bool) (initial_state : option PyObj)
    (shape : option (list nat)) (dtype : option DType) : Exception + PyObj :=
  if bool_decide (num_krylov_vecs < numeig)%Z
  then inl (ValueError num_krylov_vecs_ge_numeig_required)
  else if bool_decide (numeig > 1)%Z && negb (truthy reorthogonalize)
  then inl (ValueError (numeig_needs_reorthogonalize numeig))
  else match initial_state, shape, dtype with
       | Some v, _, _ =>
           if isinstance_jnp_ndarray v then inr v
           else inl (TypeError (expected_jax_array (type_of v)))
       | None, Some shape, Some dtype =>
           inr (jax_array (randn shape (Some dtype)))
       | None, _, _ => inl (ValueError shape_and_dtype_required)
       end.

(** What the [ValueError] checks of [gmres] require of [x0]. *)
Definition x0_matches (b : ndarray) (x0 : option ndarray) : Prop :=
  ∀ x, x0 = Some x → shape x = shape b ∧ dtype x = dtype b.

Global Instance x0_matches_dec b x0 : Decision (x0_matches b x0).
Proof.
  destruct x0 as [x|].
  - destruct (decide (shape x = shape b ∧ dtype x = dtype b)) as [H|H].
    + left. intros ? [= <-]. exact H.
    + right. intros Hx. apply H, Hx. reflexivity.
  - left. intros ? [=].
Defined.

(** The Krylov space size [gmres] works with. *)
Definition krylov_size (b : ndarray) (num_krylov_vectors : option Z) : Z :=
  default (Z.of_nat (size b)) num_krylov_vectors.

(** All four [ValueError] checks of [gmres] pass. *)
Definition gmres_values_valid (b : ndarray) (x0 : option ndarray)
    (tol : PyFloat) (atol : option PyFloat) (num_krylov_vectors : option Z)
    : Prop :=
  x0_matches b x0
  ∧ (0 < krylov_size b num_krylov_vectors ≤ Z.of_nat (size b))%Z
  ∧ lt_zero tol = false
  ∧ lt_zero (default tol atol) = false.

Global Instance gmres_values_valid_dec b x0 tol atol num_krylov_vectors :
  Decision (gmres_values_valid b x0 tol atol num_krylov_vectors).
Proof. unfold gmres_values_valid. apply _. Defined.

(** The argument checks of [gmres] that come after those on [x0]: the
    exception they raise, or nothing. *)
Definition gmres_checks_after_x0 (b : ndarray)
    (A_kwargs : option (list (string * PyObj))) (tol : PyFloat)
    (atol : option PyFloat) (num_krylov_vectors : option Z)
    (M : option Operator) : option Exception :=
  let n := krylov_size b num_krylov_vectors in
  if bool_decide (n ≤ 0)%Z || bool_decide (n > Z.of_nat (size b))%Z
  then Some (ValueError (num_krylov_vectors_must_be_in n (size b)))
  else if lt_zero tol then Some (ValueError (tol_must_be_positive tol))
  else if lt_zero (default tol atol)
  then Some (ValueError (atol_must_be_positive (default tol atol)))
  else if bool_decide (M ≠ None)
  then Some (NotImplementedError M_not_supported)
  else if bool_decide (A_kwargs ≠ None)
  then Some (NotImplementedError A_kwargs_not_supported)
  else None.

(** The argument checks of [gmres]: the exception they raise, or nothing. *)
Definition gmres_checks (b : ndarray) (A_kwargs : option (list (string * PyObj)))
    (x0 : option ndarray) (tol : PyFloat) (atol : option PyFloat)
    (num_krylov_vectors : option Z) (M : option Operator) : option Exception :=
  match x0 with
  | Some x =>
      if bool_decide (shape x ≠ shape b)
      then Some (ValueError (x0_shape_must_match (shape x) (shape b)))
      else if bool_decide (dtype x ≠ dtype b)
      then Some (ValueError (x0_dtype_must_match (dtype x) (dtype b)))
      else gmres_checks_after_x0 b A_kwargs tol atol num_krylov_vectors M
  | None => gmres_checks_after_x0 b A_kwargs tol atol num_krylov_vectors M
  end.

(** The state after the cache stage, for an operator with identity [i] whose
    wrapped form [w] is built by the calls [evs], and a routine [r] kept
    under [name]. *)
Definition registered (i : positive) (w : Callable) (evs : list Event)
    (name : string) (r : Routine) (st : State) : State :=
  {| _CACHED_MATVECS :=
       match _CACHED_MATVECS st !! i with
       | None => <[i := w]> (_CACHED_MATVECS st)
       | Some _ => _CACHED_MATVECS st
       end;
     _CACHED_FUNCTIONS :=
       match _CACHED_FUNCTIONS st !! name with
       | None => <[name := r]> (_CACHED_FUNCTIONS st)
       | Some _ => _CACHED_FUNCTIONS st
       end;
     jax_calls :=
       (jax_calls st
          ++ match _CACHED_MATVECS st !! i with None => evs | Some _ => [] end)
          ++ match _CACHED_FUNCTIONS st !! name with
             | None => [build r]
             | Some _ => []
             end |}.

(** The statements both dictionaries are touched by, common to the three
    entry points. *)
Definition cache_stage {T} (A : Operator) (wrap : Py Callable) (name : string)
    (r : Routine) (mk : Routine → Callable → T) : Py T :=
  absent ← not_in_CACHED_MATVECS A;
  when absent (wrapped ← wrap; set_CACHED_MATVECS A wrapped);;
  absent ← not_in_CACHED_FUNCTIONS name;
  when absent (f ← jitted_functions r; set_CACHED_FUNCTIONS name f);;
  f ← get_CACHED_FUNCTIONS name;
  matvec ← get_CACHED_MATVECS A;
  mret (mk f matvec).

(** The calls by which an entry point builds the wrapped form. *)
Definition wrap_calls (c : SolverCall) : list Event :=
  match c with
  | call_eigs A _ _ _ _ _ _ _ _ _ =>
      [libjax_jit (function A); tree_util_Partial (jit (function A))]
  | _ => [tree_util_Partial (function (operator c))]
  end.

(** The state a call leaves when it does not raise. *)
Definition after (c : SolverCall) (st : State) : State :=
  registered (py_id (operator c)) (wrapped_form c) (wrap_calls c)
    (algorithm c).1 (algorithm c).2 st.

(** The key each routine is kept under. *)
Definition key (r : Routine) : string :=
  match r with
  | _implicitly_restarted_arnoldi => "imp_arnoldi"
  | _generate_jitted_eigsh_lanczos => "eigsh_lanczos"
  | gmres_wrapper => "gmres_f"
  end.




(** The state after the calls [evs] into jax. *)
Definition logged (evs : list Event) (st : State) : State :=
  {| _CACHED_MATVECS := _CACHED_MATVECS st;
     _CACHED_FUNCTIONS := _CACHED_FUNCTIONS st;
     jax_calls := jax_calls st ++ evs |}.

(** The exception the argument checks of a call raise, if any. *)
Definition raised (c : SolverCall) : option Exception :=
  match c with
  | call_eigs _ _ initial_state shape dtype num_krylov_vecs numeig _ which _ =>
      match eigs_checks which numeig num_krylov_vecs initial_state shape
              dtype with
      | inl e => Some e
      | inr _ => None
      end
  | call_eigsh_lanczos _ _ initial_state shape dtype num_krylov_vecs numeig _ _
      _ reorthogonalize =>
      match eigsh_lanczos_checks numeig num_krylov_vecs reorthogonalize
              initial_state shape dtype with
      | inl e => Some e
      | inr _ => None
      end
  | call_gmres _ b _ A_kwargs x0 tol atol num_krylov_vectors _ M =>
      gmres_checks b A_kwargs x0 tol atol num_krylov_vectors M
  end.


(** ** Sample inputs *)

(** Two function objects with one and the same definition. *)
Definition A1 : Operator :=
  {| py_id := 1; definition := "def A(x, H): return jax.numpy.dot(H, x)" |}.

Definition A2 : Operator :=
  {| py_id := 2; definition := "def A(x, H): return jax.numpy.dot(H, x)" |}.

Definition vec3 : ndarray :=
  {| shape := [3]; dtype := float64; entries := supplied 1 |}.

Definition vec2 : ndarray :=
  {| shape := [2]; dtype := float64; entries := supplied 2 |}.

Definition H33 : PyObj :=
  jax_array {| shape := [3; 3]; dtype := float64; entries := supplied 3 |}.

(** The default tolerance of the eigensolvers, [1E-8]. *)
Definition tol_1e8 : PyFloat := finite (1 # 100000000).

(** The default tolerance of [gmres], [1E-05]. *)
Definition tol_1e5 : PyFloat := finite (1 # 100000).

(** [eigs(A1, [H33], vec3)], the other arguments at their defaults. *)
Definition eigs_A1 : SolverCall :=
  call_eigs A1 (Some [H33]) (Some (jax_array vec3)) None None 50 6 tol_1e8
    "LR" 20.

(** [gmres(A1, vec3, [H33])], the other arguments at their defaults. *)
Definition gmres_A1 : SolverCall :=
  call_gmres A1 vec3 (Some [H33]) None None tol_1e5 None None (Some 1%Z) None.

(** [eigsh_lanczos(A2, [H33], vec3)], the other arguments at their
    defaults. *)
Definition lanczos_A2 : SolverCall :=
  call_eigsh_lanczos A2 (Some [H33]) (Some (jax_array vec3)) None None 20 1
    tol_1e8 tol_1e8 10 (Some false).

(** [eigs(A2, [H33], vec3, which='SM')] *)
Definition eigs_A2_SM : SolverCall :=
  call_eigs A2 (Some [H33]) (Some (jax_array vec3)) None None 50 6 tol_1e8
    "SM" 20.

(** The state after [eigs_A1] in a fresh process. *)
Definition after_eigs_A1 : State :=
  {| _CACHED_MATVECS := {[ 1%positive := Partial (jit (function A1)) ]};
     _CACHED_FUNCTIONS := {[ "imp_arnoldi" := _implicitly_restarted_arnoldi ]};
     jax_calls := [libjax_jit (function A1);
                   tree_util_Partial (jit (function A1));
                   build _implicitly_restarted_arnoldi] |}.



(** ** Kinds of calls *)

Definition is_libjax_jit (ev : Event) : bool :=
  match ev with libjax_jit _ => true | _ => false end.

Definition is_tree_util_Partial (ev : Event) : bool :=
  match ev with tree_util_Partial _ => true | _ => false end.

Definition is_build (ev : Event) : bool :=
  match ev with build _ => true | _ => false end.

(** How many calls of one kind a log holds. *)
Definition count (kind : Event → bool) (log : list Event) : nat :=
  length (filter (λ ev, kind ev) log).

(** The three wrapped forms the entry points build for an operator. *)
Definition wraps_operator (i : positive) (w : Callable) : Prop :=
  ∃ A, py_id A = i ∧ (w = Partial (function A) ∨ w = Partial (jit (function A))).

(** What holds of both dictionaries in every state a process can reach:
    a routine is only kept under its own key, and an entry under an identity
    wraps an operator of that identity. *)
Definition well_keyed (st : State) : Prop :=
  (∀ name r, _CACHED_FUNCTIONS st !! name = Some r → name = key r)
  ∧ (∀ i w, _CACHED_MATVECS st !! i = Some w → wraps_operator i w).

(** The sizes of the dictionaries are the numbers of calls that fill them. *)
Definition counted (st : State) : Prop :=
  count is_tree_util_Partial (jax_calls st) = size (_CACHED_MATVECS st)
  ∧ count is_build (jax_calls st) = size (_CACHED_FUNCTIONS st)
  ∧ count is_libjax_jit (jax_calls st) ≤ size (_CACHED_MATVECS st).

(** ** The other methods of JaxBackend *)

(** The methods below check the order of their arguments and hand them to
    jax. What they return is the value of a jax expression, kept as the
    expression itself. *)
Module Backend.

Inductive Expr :=
| array (tensor : ndarray)
| jnp_reshape (tensor : Expr) (newshape : list Z)
| times (tensor1 tensor2 : Expr)
| jnp_diag (tensor : Expr)
| jnp_linalg_inv (matrix : Expr)
| jsp_linalg_expm (matrix : Expr)
| jnp_matmul (tensor1 tensor2 : Expr)
| lax_dynamic_slice (tensor : Expr) (start_indices slice_sizes : list Z).

(** The messages of these methods, with the values they are formatted
    with. *)
Inductive Message :=
| lengths_must_be_identical
| only_one_and_two_dimensional_tensors
| inv_only_matrices (shape : list nat)
| only_order_1_for_tensor2 (shape : list nat)
| only_order_1_for_tensor1 (shape : list nat)
| expm_only_matrices (shape : list nat)
| expm_only_N_by_N (x y : nat)
| matmul_needs_order_above_1
| NoneType_not_subscriptable.

Inductive Exception :=
| ValueError (m : Message)
| TypeError (m : Message).

(** [len(tensor.shape)], which is also [tensor.ndim] *)
Definition ndim (tensor : ndarray) : nat := length (shape tensor).

Definition slice (tensor : ndarray) (start_indices slice_sizes : list Z)
    : Exception + Expr :=
  if bool_decide (length start_indices ≠ length slice_sizes)
  then inl (ValueError lengths_must_be_identical)
  else inr (lax_dynamic_slice (array tensor) start_indices slice_sizes).

Definition diag (tensor : ndarray) : Exception + Expr :=
  if bool_decide (ndim tensor ∉ [1; 2])
  then inl (TypeError only_one_and_two_dimensional_tensors)
  else inr (jnp_diag (array tensor)).

Definition inv (matrix : ndarray) : Exception + Expr :=
  if bool_decide (2 < ndim matrix)
  then inl (ValueError (inv_only_matrices (shape matrix)))
  else inr (jnp_linalg_inv (array matrix)).

Definition broadcast_right_multiplication (tensor1 tensor2 : ndarray)
    : Exception + Expr :=
  if bool_decide (ndim tensor2 ≠ 1)
  then inl (ValueError (only_order_1_for_tensor2 (shape tensor2)))
  else inr (times (array tensor1) (array tensor2)).







Definition expm (matrix : ndarray) : Exception + Expr :=
  if bool_decide (ndim matrix ≠ 2)
  then inl (ValueError (expm_only_matrices (shape matrix)))
  else if bool_decide (shape matrix !! 0 ≠ shape matrix !! 1)
  then inl (ValueError (expm_only_N_by_N (default 0 (shape matrix !! 0))
                          (default 0 (shape matrix !! 1))))
  else inr (jsp_linalg_expm (array matrix)).

Definition matmul (tensor1 tensor2 : ndarray) : Exception + Expr :=
  if bool_decide (ndim tensor1 ≤ 1) || bool_decide (ndim tensor2 ≤ 1)
  then inl (ValueError matmul_needs_order_above_1)
  else inr (jnp_matmul (array tensor1) (array tensor2)).

(** *** Random tensors *)

(** numpy's global generator: the values it has in store for
    [np.random.randint(0, 2**63)], and how many of them were taken. *)
Record NumpyRandom := { store : nat → Z; taken : nat }.

(** [np.random.randint(0, 2**63)] *)
Definition randint (g : NumpyRandom) : Z * NumpyRandom :=
  ((store g (taken g) `mod` 2 ^ 63)%Z,
   {| store := store g; taken := S (taken g) |}).

(** [libjax.random.PRNGKey(seed)] *)
Inductive Key := PRNGKey (seed : Z).

(** What jax draws: [libjax.random.normal(key, shape, dtype)] and
    [libjax.random.uniform(key, shape, dtype, minval, maxval)]. *)
Inductive Sample :=
| random_normal (key : Key) (shape : list nat) (dtype : option DType)
| random_uniform_of (key : Key) (shape : list nat) (dtype : option DType)
    (minval maxval : PyFloat).

(** What the two methods return: [sample.astype(dtype)], or
    [real_part + unit * complex_part]. *)
Inductive Tensor :=
| astype (sample : Sample) (dtype : DType)
| plus_unit_times (real_part : Sample) (unit : DType) (complex_part : Sample).



(** [not seed]: no seed, or the seed zero *)
Definition not_seed (seed : option Z) : bool :=
  match seed with None => true | Some s => bool_decide (s = 0%Z) end.

(** The seed the method goes on with: [if not seed: seed = randint(...)]. *)
Definition seeded (seed : option Z) (g : NumpyRandom) : Z * NumpyRandom :=
  if not_seed seed then randint g else (default 0%Z seed, g).

Definition randn (shape : list nat) (dtype : option DType) (seed : option Z)
    (g : NumpyRandom) : Tensor * NumpyRandom :=
  let '(seed, g) := seeded seed g in
  let key := PRNGKey seed in
  let dtype := default float64 dtype in
  let cmplx_randn (complex_dtype real_dtype : DType) :=
    let key_2 := PRNGKey (seed + 1) in
    let real_part := random_normal key shape (Some real_dtype) in
    let complex_part := random_normal key_2 shape (Some real_dtype) in
    let unit := if decide (complex_dtype = complex64) then complex64
                else complex128 in
    plus_unit_times real_part unit complex_part in
  if decide (dtype = complex128) then (cmplx_randn dtype float64, g)
  else if decide (dtype = complex64) then (cmplx_randn dtype float32, g)
  else (astype (random_normal key shape None) dtype, g).

(** [boundaries[0]] and [boundaries[1]] of an optional pair *)
Definition subscript (boundaries : option (PyFloat * PyFloat))
    : Exception + PyFloat * PyFloat :=
  match boundaries with
  | Some bounds => inr bounds
  | None => inl (TypeError NoneType_not_subscriptable)
  end.

Definition random_uniform (shape : list nat)
    (boundaries : option (PyFloat * PyFloat)) (dtype : option DType)
    (seed : option Z) (g : NumpyRandom)
    : (Exception + Tensor) * NumpyRandom :=
  let '(seed, g) := seeded seed g in
  let key := PRNGKey seed in
  let dtype := default float64 dtype in
  let cmplx_random_uniform (complex_dtype real_dtype : DType) :=
    let key_2 := PRNGKey (seed + 1) in
    match subscript boundaries with
    | inl e => inl e
    | inr (minval, maxval) =>
        let real_part :=
          random_uniform_of key shape (Some real_dtype) minval maxval in
        let complex_part :=
          random_uniform_of key_2 shape (Some real_dtype) minval maxval in
        let unit := if decide (complex_dtype = complex64) then complex64
                    else complex128 in
        inr (plus_unit_times real_part unit complex_part)
    end in
  if decide (dtype = complex128) then (cmplx_random_uniform dtype float64, g)
  else if decide (dtype = complex64)
  then (cmplx_random_uniform dtype float32, g)
  else
    (match subscript boundaries with
     | inl e => inl e
     | inr (minval, maxval) =>
         inr (astype (random_uniform_of key shape None minval maxval) dtype)
     end, g).

End Backend.

(** A generator that has the numbers 7, 8, 9, ... in store. *)
Definition numpy_random : Backend.NumpyRandom :=
  {| Backend.store := λ n, (7 + Z.of_nat n)%Z; Backend.taken := 0 |}.

(** A matrix, a stack of matrices and a scalar. *)
Definition mat23 : ndarray :=
  {| shape := [2; 3]; dtype := float64; entries := supplied 4 |}.

Definition stack233 : ndarray :=
  {| shape := [2; 3; 3]; dtype := float64; entries := supplied 5 |}.

Definition scalar : ndarray :=
  {| shape := []; dtype := float64; entries := supplied 6 |}.

(** Proof steps for the monad: unfold its operations on a given state. *)
Ltac py_compute :=
  cbv beta iota zeta delta [mbind mret Py_bind Py_ret libjax_jit_
    tree_util_Partial_ jitted_functions call logged
    _CACHED_MATVECS _CACHED_FUNCTIONS jax_calls].

(** * Properties *)

(** ** Laws of the monad *)

Lemma raise_if_bind {T} c e (k : Py T) st :
  (raise_if c e;; k) st = if c then (inl e, st) else k st.
Proof. by destruct c. Qed.

Lemma mret_bind {T U} (a : T) (k : T → Py U) st : (mret a ≫= k) st = k a st.
Proof. reflexivity. Qed.

Lemma raise_bind {T U} e (k : T → Py U) st :
  (raise e ≫= k) st = (inl e, st).
Proof. reflexivity. Qed.

(** ** The stage lemmas *)

Lemma cache_stage_spec {T} A wrap w evs name r (mk : Routine → Callable → T) st :
  (∀ s, wrap s = (inr w, logged evs s)) →
  cache_stage A wrap name r mk st =
    (inr (mk (default r (_CACHED_FUNCTIONS st !! name))
             (default w (_CACHED_MATVECS st !! py_id A))),
     registered (py_id A) w evs name r st).
Proof.
  intros Hw. destruct st as [M F L].
  cbv beta iota zeta delta [cache_stage registered mbind mret Py_bind Py_ret
    not_in_CACHED_MATVECS when not_in_CACHED_FUNCTIONS jitted_functions
    call set_CACHED_MATVECS set_CACHED_FUNCTIONS get_CACHED_FUNCTIONS
    get_CACHED_MATVECS _CACHED_MATVECS _CACHED_FUNCTIONS jax_calls].
  destruct (M !! py_id A) as [m|] eqn:Hm; destruct (F !! name) as [f|] eqn:Hf.
  all: rewrite ?bool_decide_eq_true_2, ?bool_decide_eq_false_2 by done.
  all: rewrite ?Hw;
    cbv beta iota zeta delta [logged _CACHED_MATVECS _CACHED_FUNCTIONS jax_calls].
  all: rewrite ?Hf, ?Hm;
    rewrite ?bool_decide_eq_true_2, ?bool_decide_eq_false_2 by done.
  all: rewrite ?lookup_insert_eq, ?Hf, ?Hm, ?app_nil_r; cbv beta iota;
    rewrite ?lookup_insert_eq, ?app_nil_r; reflexivity.
Qed.

Lemma eigs_stages A args initial_state shape dtype num_krylov_vecs numeig tol
    which maxiter st :
  eigs A args initial_state shape dtype num_krylov_vecs numeig tol which
    maxiter st =
  match eigs_checks which numeig num_krylov_vecs initial_state shape dtype with
  | inl e => (inl e, st)
  | inr v =>
      let c := call_eigs A args initial_state shape dtype num_krylov_vecs
                 numeig tol which maxiter in
      (inr {| application :=
                apply_arnoldi
                  (default _implicitly_restarted_arnoldi
                     (_CACHED_FUNCTIONS st !! "imp_arnoldi"))
                  (default (wrapped_form c) (_CACHED_MATVECS st !! py_id A))
                  (default [] args) v num_krylov_vecs numeig which tol maxiter;
              returns := λ pairs : EigPairs, pairs |},
       after c st)
  end.
Proof.
  assert (∀ s, (jitted ← libjax_jit_ (function A); tree_util_Partial_ jitted) s
               = (inr (Partial (jit (function A))),
                  logged [libjax_jit (function A);
                          tree_util_Partial (jit (function A))] s)) as Hwrap.
  { intros [M F L]. py_compute. by rewrite <- app_assoc. }
  pose proof (λ mk s, @cache_stage_spec (Applied EigPairs EigPairs) A _ _ _
    "imp_arnoldi" _implicitly_restarted_arnoldi mk s Hwrap) as Hstage.
  unfold eigs, eigs_checks. cbv zeta.
  rewrite raise_if_bind. case_bool_decide; [done|].
  rewrite raise_if_bind. case_bool_decide; [done|].
  destruct initial_state as [v|]; [|destruct shape, dtype];
    rewrite ?mret_bind, ?raise_bind; try done.
  - rewrite raise_if_bind. destruct (isinstance_jnp_ndarray v); [|done].
    cbn [negb]. exact (Hstage (λ f matvec, Build_Applied _ _ _ _) st).
  - rewrite raise_if_bind. cbn [negb isinstance_jnp_ndarray].
    exact (Hstage (λ f matvec, Build_Applied _ _ _ _) st).
Qed.

Lemma eigsh_lanczos_stages A args initial_state shape dtype num_krylov_vecs
    numeig tol delta ndiag reorthogonalize st :
  eigsh_lanczos A args initial_state shape dtype num_krylov_vecs numeig tol
    delta ndiag reorthogonalize st =
  match eigsh_lanczos_checks numeig num_krylov_vecs reorthogonalize
          initial_state shape dtype with
  | inl e => (inl e, st)
  | inr v =>
      let c := call_eigsh_lanczos A args initial_state shape dtype
                 num_krylov_vecs numeig tol delta ndiag reorthogonalize in
      (inr {| application :=
                apply_lanczos
                  (default _generate_jitted_eigsh_lanczos
                     (_CACHED_FUNCTIONS st !! "eigsh_lanczos"))
                  (default (wrapped_form c) (_CACHED_MATVECS st !! py_id A))
                  (default [] args) v num_krylov_vecs numeig delta
                  reorthogonalize;
              returns := λ pairs : EigPairs, pairs |},
       after c st)
  end.
Proof.
  assert (∀ s, tree_util_Partial_ (function A) s
               = (inr (Partial (function A)),
                  logged [tree_util_Partial (function A)] s)) as Hwrap.
  { by intros [M F L]. }
  pose proof (λ mk s, @cache_stage_spec (Applied EigPairs EigPairs) A _ _ _
    "eigsh_lanczos" _generate_jitted_eigsh_lanczos mk s Hwrap) as Hstage.
  unfold eigsh_lanczos, eigsh_lanczos_checks. cbv zeta.
  rewrite raise_if_bind. case_bool_decide; [done|].
  rewrite raise_if_bind.
  destruct (bool_decide (numeig > 1)%Z && negb (truthy reorthogonalize));
    [done|].
  destruct initial_state as [v|]; [|destruct shape, dtype];
    rewrite ?mret_bind, ?raise_bind; try done.
  - rewrite raise_if_bind. destruct (isinstance_jnp_ndarray v); [|done].
    cbn [negb]. exact (Hstage (λ f matvec, Build_Applied _ _ _ _) st).
  - rewrite raise_if_bind. cbn [negb isinstance_jnp_ndarray].
    exact (Hstage (λ f matvec, Build_Applied _ _ _ _) st).
Qed.

Lemma gmres_stages A_mv b A_args A_kwargs x0 tol atol num_krylov_vectors
    maxiter M st :
  gmres A_mv b A_args A_kwargs x0 tol atol num_krylov_vectors maxiter M st =
  match gmres_checks b A_kwargs x0 tol atol num_krylov_vectors M with
  | Some e => (inl e, st)
  | None =>
      let c := call_gmres A_mv b A_args A_kwargs x0 tol atol
                 num_krylov_vectors maxiter M in
      (inr {| application :=
                apply_gmres
                  (default gmres_wrapper (_CACHED_FUNCTIONS st !! "gmres_f"))
                  (default (wrapped_form c) (_CACHED_MATVECS st !! py_id A_mv))
                  (default [] A_args) b
                  (default (zeros (shape b) (Some (dtype b))) x0) tol
                  (default tol atol) (krylov_size b num_krylov_vectors)
                  maxiter;
              returns := gmres_return |},
       after c st)
  end.
Proof.
  assert (∀ s, tree_util_Partial_ (function A_mv) s
               = (inr (Partial (function A_mv)),
                  logged [tree_util_Partial (function A_mv)] s)) as Hwrap.
  { by intros [Ms F L]. }
  pose proof (λ mk s, @cache_stage_spec (Applied GmresReply (ndarray * Z))
    A_mv _ _ _ "gmres_f" gmres_wrapper mk s Hwrap) as Hstage.
  unfold gmres, gmres_checks, gmres_checks_after_x0. cbv zeta.
  assert (∀ k : Py (Applied GmresReply (ndarray * Z)),
            (mret ();; k) st = k st) as Hskip by done.
  destruct x0 as [x|].
  - rewrite raise_if_bind. case_bool_decide; [done|].
    rewrite raise_if_bind. case_bool_decide; [done|].
    rewrite raise_if_bind.
    destruct (_ || _); [done|].
    rewrite raise_if_bind. destruct (lt_zero tol); [done|].
    rewrite raise_if_bind. destruct (lt_zero (default tol atol)); [done|].
    rewrite raise_if_bind. case_bool_decide; [done|].
    rewrite raise_if_bind. case_bool_decide; [done|].
    exact (Hstage (λ f matvec, Build_Applied _ _ _ _) st).
  - rewrite !Hskip.
    rewrite raise_if_bind.
    destruct (_ || _); [done|].
    rewrite raise_if_bind. destruct (lt_zero tol); [done|].
    rewrite raise_if_bind. destruct (lt_zero (default tol atol)); [done|].
    rewrite raise_if_bind. case_bool_decide; [done|].
    rewrite raise_if_bind. case_bool_decide; [done|].
    exact (Hstage (λ f matvec, Build_Applied _ _ _ _) st).
Qed.

(** A call raises what its argument checks raise, in the state it started
    from; otherwise it ends in the application of the cached routine to the
    cached form of the operator, in the state [after] describes. *)
Lemma perform_stages c st :
  match raised c with
  | Some e => perform c st = (inl e, st)
  | None =>
      ∃ a, perform c st = (inr a, after c st)
           ∧ matvec_of a = default (wrapped_form c)
                             (_CACHED_MATVECS st !! py_id (operator c))
           ∧ routine_of a = default (algorithm c).2
                              (_CACHED_FUNCTIONS st !! (algorithm c).1)
  end.
Proof.
  destruct c; unfold perform, raised.
  - rewrite eigs_stages. destruct (eigs_checks _ _ _ _ _ _); [done|].
    cbv zeta. eexists; split_and!; reflexivity.
  - rewrite eigsh_lanczos_stages.
    destruct (eigsh_lanczos_checks _ _ _ _ _ _); [done|].
    cbv zeta. eexists; split_and!; reflexivity.
  - rewrite gmres_stages. destruct (gmres_checks _ _ _ _ _ _ _); [done|].
    cbv zeta. eexists; split_and!; reflexivity.
Qed.

Lemma perform_raise c st e st' :
  perform c st = (inl e, st') → raised c = Some e ∧ st' = st.
Proof.
  pose proof (perform_stages c st) as H. destruct (raised c) as [e'|].
  - rewrite H. by intros [= -> ->].
  - destruct H as (a & -> & _). intros [=].
Qed.

Lemma perform_return c st a st' :
  perform c st = (inr a, st') →
  raised c = None ∧ st' = after c st
  ∧ matvec_of a = default (wrapped_form c)
                    (_CACHED_MATVECS st !! py_id (operator c))
  ∧ routine_of a = default (algorithm c).2
                     (_CACHED_FUNCTIONS st !! (algorithm c).1).
Proof.
  pose proof (perform_stages c st) as H. destruct (raised c) as [e'|].
  - rewrite H. intros [=].
  - destruct H as (a' & -> & ? & ?). by intros [= <- <-].
Qed.

(** The state a call leaves, whether it raises or not. *)
Lemma perform_state c st :
  (perform c st).2 = st ∨ (perform c st).2 = after c st.
Proof.
  pose proof (perform_stages c st) as H. destruct (raised c).
  - left. by rewrite H.
  - right. destruct H as (a & -> & _). done.
Qed.

(** ** The cache stage *)

Lemma key_algorithm c : key (algorithm c).2 = (algorithm c).1.
Proof. by destruct c. Qed.

Lemma key_inj r1 r2 : key r1 = key r2 → r1 = r2.
Proof. by destruct r1, r2. Qed.

Lemma after_MATVECS_miss c st :
  _CACHED_MATVECS st !! py_id (operator c) = None →
  _CACHED_MATVECS (after c st)
  = <[py_id (operator c) := wrapped_form c]> (_CACHED_MATVECS st).
Proof. intros H. unfold after, registered. cbn. by rewrite H. Qed.

Lemma after_MATVECS_hit c st w :
  _CACHED_MATVECS st !! py_id (operator c) = Some w →
  _CACHED_MATVECS (after c st) = _CACHED_MATVECS st.
Proof. intros H. unfold after, registered. cbn. by rewrite H. Qed.

Lemma after_FUNCTIONS_miss c st :
  _CACHED_FUNCTIONS st !! (algorithm c).1 = None →
  _CACHED_FUNCTIONS (after c st)
  = <[(algorithm c).1 := (algorithm c).2]> (_CACHED_FUNCTIONS st).
Proof. intros H. unfold after, registered. cbn. by rewrite H. Qed.

Lemma after_FUNCTIONS_hit c st r :
  _CACHED_FUNCTIONS st !! (algorithm c).1 = Some r →
  _CACHED_FUNCTIONS (after c st) = _CACHED_FUNCTIONS st.
Proof. intros H. unfold after, registered. cbn. by rewrite H. Qed.

Lemma after_jax_calls c st :
  jax_calls (after c st)
  = (jax_calls st
       ++ match _CACHED_MATVECS st !! py_id (operator c) with
          | None => wrap_calls c
          | Some _ => []
          end)
      ++ match _CACHED_FUNCTIONS st !! (algorithm c).1 with
         | None => [build (algorithm c).2]
         | Some _ => []
         end.
Proof. reflexivity. Qed.

(** ** Counting calls *)







(** ** What every reachable state satisfies *)




Lemma run_snoc calls c st : run (calls ++ [c]) st = (perform c (run calls st)).2.
Proof. unfold run. by rewrite foldl_app. Qed.


(** ** The dictionaries only grow *)

Lemma after_MATVECS_cases c st :
  _CACHED_MATVECS (after c st) = _CACHED_MATVECS st
  ∨ _CACHED_MATVECS st !! py_id (operator c) = None
    ∧ _CACHED_MATVECS (after c st)
      = <[py_id (operator c) := wrapped_form c]> (_CACHED_MATVECS st).
Proof.
  destruct (_CACHED_MATVECS st !! py_id (operator c)) as [w|] eqn:Hc.
  - left. by eapply after_MATVECS_hit.
  - right. split; [done|]. by apply after_MATVECS_miss.
Qed.

Lemma after_FUNCTIONS_cases c st :
  _CACHED_FUNCTIONS (after c st) = _CACHED_FUNCTIONS st
  ∨ _CACHED_FUNCTIONS st !! (algorithm c).1 = None
    ∧ _CACHED_FUNCTIONS (after c st)
      = <[(algorithm c).1 := (algorithm c).2]> (_CACHED_FUNCTIONS st).
Proof.
  destruct (_CACHED_FUNCTIONS st !! (algorithm c).1) as [r|] eqn:Hc.
  - left. by eapply after_FUNCTIONS_hit.
  - right. split; [done|]. by apply after_FUNCTIONS_miss.
Qed.

Lemma perform_grows c st :
  _CACHED_MATVECS st ⊆ _CACHED_MATVECS (perform c st).2
  ∧ _CACHED_FUNCTIONS st ⊆ _CACHED_FUNCTIONS (perform c st).2.
Proof.
  destruct (perform_state c st) as [-> | ->]; [done|]. split.
  - destruct (after_MATVECS_cases c st) as [-> | [? ->]]; [done|].
    by apply insert_subseteq.
  - destruct (after_FUNCTIONS_cases c st) as [-> | [? ->]]; [done|].
    by apply insert_subseteq.
Qed.

Lemma run_grows calls st :
  _CACHED_MATVECS st ⊆ _CACHED_MATVECS (run calls st)
  ∧ _CACHED_FUNCTIONS st ⊆ _CACHED_FUNCTIONS (run calls st).
Proof.
  induction calls as [|c calls [IH1 IH2]] using rev_ind; [done|].
  rewrite run_snoc. destruct (perform_grows c (run calls st)).
  split; by etrans.
Qed.

(** ** Caching *)


(** C9. A call changes neither dictionary, or inserts into it under a key
    that was not present; so an entry, once stored, is found unchanged after
    any further calls. *)
Theorem caches_only_grow :
  (∀ c st,
     (_CACHED_MATVECS (perform c st).2 = _CACHED_MATVECS st
      ∨ ∃ i w, _CACHED_MATVECS st !! i = None
               ∧ _CACHED_MATVECS (perform c st).2
                 = <[i := w]> (_CACHED_MATVECS st))
     ∧ (_CACHED_FUNCTIONS (perform c st).2 = _CACHED_FUNCTIONS st
        ∨ ∃ name r, _CACHED_FUNCTIONS st !! name = None
                    ∧ _CACHED_FUNCTIONS (perform c st).2
                      = <[name := r]> (_CACHED_FUNCTIONS st)))
  ∧ (∀ calls st i w,
       _CACHED_MATVECS st !! i = Some w →
       _CACHED_MATVECS (run calls st) !! i = Some w)
  ∧ (∀ calls st name r,
       _CACHED_FUNCTIONS st !! name = Some r →
       _CACHED_FUNCTIONS (run calls st) !! name = Some r).
Proof.
  split_and!.
  - intros c st. destruct (perform_state c st) as [-> | ->]; [by auto|]. split.
    + destruct (after_MATVECS_cases c st) as [? | [? ?]]; [by left|].
      right. eauto.
    + destruct (after_FUNCTIONS_cases c st) as [? | [? ?]]; [by left|].
      right. eauto.
  - intros calls st i w Hi.
    by apply (lookup_weaken _ _ _ _ Hi), run_grows.
  - intros calls st name r Hr.
    by apply (lookup_weaken _ _ _ _ Hr), run_grows.
Qed.

(** ** The argument checks of gmres *)

Lemma krylov_range_check b num_krylov_vectors :
  let n := krylov_size b num_krylov_vectors in
  (bool_decide (n ≤ 0)%Z || bool_decide (n > Z.of_nat (size b))%Z = false)
  ↔ (0 < n ≤ Z.of_nat (size b))%Z.
Proof.
  cbv zeta. rewrite orb_false_iff, !bool_decide_eq_false. lia.
Qed.

Lemma gmres_checks_after_x0_cases b A_kwargs tol atol num_krylov_vectors M :
  let n := krylov_size b num_krylov_vectors in
  let checks :=
    gmres_checks_after_x0 b A_kwargs tol atol num_krylov_vectors M in
  (¬ (0 < n ≤ Z.of_nat (size b))%Z
   ∧ checks = Some (ValueError (num_krylov_vectors_must_be_in n (size b))))
  ∨ ((0 < n ≤ Z.of_nat (size b))%Z
     ∧ ((lt_zero tol = true
         ∧ checks = Some (ValueError (tol_must_be_positive tol)))
        ∨ (lt_zero tol = false ∧ lt_zero (default tol atol) = true
           ∧ checks
             = Some (ValueError (atol_must_be_positive (default tol atol))))
        ∨ (lt_zero tol = false ∧ lt_zero (default tol atol) = false
           ∧ ((M ≠ None
               ∧ checks = Some (NotImplementedError M_not_supported))
              ∨ (M = None ∧ A_kwargs ≠ None
                 ∧ checks = Some (NotImplementedError A_kwargs_not_supported))
              ∨ (M = None ∧ A_kwargs = None ∧ checks = None))))).
Proof.
  cbv zeta. unfold gmres_checks_after_x0. cbv zeta.
  pose proof (krylov_range_check b num_krylov_vectors) as Hrange.
  cbv zeta in Hrange.
  destruct (_ || _).
  { left. split; [|done]. intros H. by apply Hrange in H. }
  right. split; [by apply Hrange|].
  destruct (lt_zero tol); [by left|].
  destruct (lt_zero (default tol atol)); [by right; left|].
  right; right. split_and!; try done.
  case_bool_decide as HM; [by left|]. try apply dec_stable in HM.
  case_bool_decide as Hkw; [by right; left|]. try apply dec_stable in Hkw.
  by right; right.
Qed.

(** The checks of [gmres] raise a [ValueError] exactly when one of the four
    conditions on the values fails; otherwise they raise
    [NotImplementedError] for [M], then for [A_kwargs], or nothing. *)
Lemma gmres_checks_cases b A_kwargs x0 tol atol num_krylov_vectors M :
  let checks := gmres_checks b A_kwargs x0 tol atol num_krylov_vectors M in
  (¬ gmres_values_valid b x0 tol atol num_krylov_vectors
   ∧ ∃ m, checks = Some (ValueError m))
  ∨ (gmres_values_valid b x0 tol atol num_krylov_vectors
     ∧ ((M ≠ None ∧ checks = Some (NotImplementedError M_not_supported))
        ∨ (M = None ∧ A_kwargs ≠ None
           ∧ checks = Some (NotImplementedError A_kwargs_not_supported))
        ∨ (M = None ∧ A_kwargs = None ∧ checks = None))).
Proof.
  cbv zeta. unfold gmres_checks, gmres_values_valid.
  assert (x0_matches b x0 →
    (¬ (x0_matches b x0
        ∧ (0 < krylov_size b num_krylov_vectors ≤ Z.of_nat (size b))%Z
        ∧ lt_zero tol = false ∧ lt_zero (default tol atol) = false)
     ∧ ∃ m, gmres_checks_after_x0 b A_kwargs tol atol num_krylov_vectors M
            = Some (ValueError m))
    ∨ ((x0_matches b x0
        ∧ (0 < krylov_size b num_krylov_vectors ≤ Z.of_nat (size b))%Z
        ∧ lt_zero tol = false ∧ lt_zero (default tol atol) = false)
       ∧ ((M ≠ None
           ∧ gmres_checks_after_x0 b A_kwargs tol atol num_krylov_vectors M
             = Some (NotImplementedError M_not_supported))
          ∨ (M = None ∧ A_kwargs ≠ None
             ∧ gmres_checks_after_x0 b A_kwargs tol atol num_krylov_vectors M
               = Some (NotImplementedError A_kwargs_not_supported))
          ∨ (M = None ∧ A_kwargs = None
             ∧ gmres_checks_after_x0 b A_kwargs tol atol num_krylov_vectors M
               = None)))) as Hrest.
  { intros Hx0.
    destruct (gmres_checks_after_x0_cases b A_kwargs tol atol
                num_krylov_vectors M)
      as [[Hn ->] | [Hn [[Ht ->] | [(Ht & Ha & ->) | (Ht & Ha & H)]]]];
      cbv zeta in *.
    - left. split; [tauto|eauto].
    - left. split; [|eauto]. intros (_ & _ & ? & _). congruence.
    - left. split; [|eauto]. intros (_ & _ & _ & ?). congruence.
    - right. split; [done|]. exact H. }
  destruct x0 as [x|].
  - case_bool_decide as Hs.
    { left. split; [|eauto]. intros [Hx _]. by destruct (Hx x). }
    try apply dec_stable in Hs.
    case_bool_decide as Hd.
    { left. split; [|eauto]. intros [Hx _]. by destruct (Hx x). }
    try apply dec_stable in Hd.
    apply Hrest. by intros ? [= <-].
  - apply Hrest. by intros ? [=].
Qed.

(** ** Which exception a call raises *)

Lemma eigs_raises A args initial_state shape dtype num_krylov_vecs numeig tol
    which maxiter st e :
  (eigs A args initial_state shape dtype num_krylov_vecs numeig tol which
     maxiter st).1 = inl e
  ↔ eigs_checks which numeig num_krylov_vecs initial_state shape dtype = inl e.
Proof.
  rewrite eigs_stages. destruct (eigs_checks _ _ _ _ _ _); cbn.
  - split; by intros [= ->].
  - split; intros [=].
Qed.

Lemma eigsh_lanczos_raises A args initial_state shape dtype num_krylov_vecs
    numeig tol delta ndiag reorthogonalize st e :
  (eigsh_lanczos A args initial_state shape dtype num_krylov_vecs numeig tol
     delta ndiag reorthogonalize st).1 = inl e
  ↔ eigsh_lanczos_checks numeig num_krylov_vecs reorthogonalize initial_state
      shape dtype = inl e.
Proof.
  rewrite eigsh_lanczos_stages.
  destruct (eigsh_lanczos_checks _ _ _ _ _ _); cbn.
  - split; by intros [= ->].
  - split; intros [=].
Qed.

Lemma gmres_raises A_mv b A_args A_kwargs x0 tol atol num_krylov_vectors
    maxiter M st e :
  (gmres A_mv b A_args A_kwargs x0 tol atol num_krylov_vectors maxiter M
     st).1 = inl e
  ↔ gmres_checks b A_kwargs x0 tol atol num_krylov_vectors M = Some e.
Proof.
  rewrite gmres_stages. destruct (gmres_checks _ _ _ _ _ _ _); cbn.
  - split; by intros [= ->].
  - split; intros [=].
Qed.

(** An entry point that raises is still in the state it started from. *)
Lemma eigs_raises_unchanged A args initial_state shape dtype num_krylov_vecs
    numeig tol which maxiter st e :
  eigs_checks which numeig num_krylov_vecs initial_state shape dtype = inl e →
  eigs A args initial_state shape dtype num_krylov_vecs numeig tol which
    maxiter st = (inl e, st).
Proof. intros H. by rewrite eigs_stages, H. Qed.

Lemma eigsh_lanczos_raises_unchanged A args initial_state shape dtype
    num_krylov_vecs numeig tol delta ndiag reorthogonalize st e :
  eigsh_lanczos_checks numeig num_krylov_vecs reorthogonalize initial_state
    shape dtype = inl e →
  eigsh_lanczos A args initial_state shape dtype num_krylov_vecs numeig tol
    delta ndiag reorthogonalize st = (inl e, st).
Proof. intros H. by rewrite eigsh_lanczos_stages, H. Qed.

Lemma gmres_raises_unchanged A_mv b A_args A_kwargs x0 tol atol
    num_krylov_vectors maxiter M st e :
  gmres_checks b A_kwargs x0 tol atol num_krylov_vectors M = Some e →
  gmres A_mv b A_args A_kwargs x0 tol atol num_krylov_vectors maxiter M st
  = (inl e, st).
Proof. intros H. by rewrite gmres_stages, H. Qed.

(** The checks on the initial state raise a [ValueError] without values or
    a [TypeError]. *)
Lemma initial_state_checks_raise (initial_state : option PyObj)
    (shape : option (list nat)) (dtype : option DType) e :
  match initial_state, shape, dtype with
  | Some v, _, _ =>
      if isinstance_jnp_ndarray v then inr v
      else inl (TypeError (expected_jax_array (type_of v)))
  | None, Some shape, Some dtype => inr (jax_array (randn shape (Some dtype)))
  | None, _, _ => inl (ValueError shape_and_dtype_required)
  end = inl e →
  e = ValueError shape_and_dtype_required ∨ is_TypeError e = true.
Proof.
  destruct initial_state as [v|].
  - destruct (isinstance_jnp_ndarray v); [done|]. intros [= <-]. by right.
  - destruct shape, dtype; intros [= <-]; by left.
Qed.

(** ** Errors come before caching *)

(** C4. Whatever exception one of the three entry points raises (the
    [ValueError]s and [TypeError]s among them), it is the one its argument
    checks give, and the process state is the one the call started from:
    nothing was stored in either dictionary, no call into jax or
    [jitted_functions] was made, and no routine was applied to the
    operator. *)
Theorem errors_precede_caching c st e st' :
  perform c st = (inl e, st') →
  raised c = Some e
  ∧ st' = st
  ∧ _CACHED_MATVECS st' = _CACHED_MATVECS st
  ∧ _CACHED_FUNCTIONS st' = _CACHED_FUNCTIONS st
  ∧ jax_calls st' = jax_calls st.
Proof. intros [? ->]%perform_raise. done. Qed.

(** ** The status code of gmres *)


(** ** The argument checks of eigs and eigsh_lanczos *)

(** C3, as the code has it. [eigs] raises the [ValueError] for an unsupported
    [which], in the state it started from, exactly when [which] is one of
    'SI', 'LI', 'SM' and 'SR'; 'LR' and 'LM' are not among them, and neither
    is any other string. *)
Theorem eigs_which_rejected A args initial_state shape dtype num_krylov_vecs
    numeig tol which maxiter st :
  let result := eigs A args initial_state shape dtype num_krylov_vecs numeig
                  tol which maxiter st in
  (which ∈ ["SI"; "LI"; "SM"; "SR"] →
     result = (inl (ValueError (which_not_supported which)), st))
  ∧ ((∃ w, result.1 = inl (ValueError (which_not_supported w)))
     ↔ (which ∈ ["SI"; "LI"; "SM"; "SR"]))
  ∧ ("LR" ∉ ["SI"; "LI"; "SM"; "SR"])
  ∧ ("LM" ∉ ["SI"; "LI"; "SM"; "SR"]).
Proof.
  cbv zeta. split_and!.
  - intros H. apply eigs_raises_unchanged. unfold eigs_checks.
    by rewrite bool_decide_eq_true_2.
  - split.
    + intros [w Hw%eigs_raises]. unfold eigs_checks in Hw.
      case_bool_decide as H; [done|]. case_bool_decide; [done|].
      apply initial_state_checks_raise in Hw as [? | ?]; by simplify_eq.
    + intros H. exists which. apply eigs_raises. unfold eigs_checks.
      by rewrite bool_decide_eq_true_2.
  - by apply (bool_decide_eq_false_1 ("LR" ∈ ["SI"; "LI"; "SM"; "SR"])).
  - by apply (bool_decide_eq_false_1 ("LM" ∈ ["SI"; "LI"; "SM"; "SR"])).
Qed.

(** C5. With [numeig > num_krylov_vecs] both [eigs] and [eigsh_lanczos] raise
    a [ValueError] in the state they started from; with
    [num_krylov_vecs >= numeig] neither raises the [ValueError] of this
    check. *)
Theorem numeig_above_num_krylov_vecs A args initial_state shape dtype
    num_krylov_vecs numeig tol which maxiter delta ndiag reorthogonalize st :
  ((numeig > num_krylov_vecs)%Z →
     (∃ m, eigs A args initial_state shape dtype num_krylov_vecs numeig tol
             which maxiter st = (inl (ValueError m), st))
     ∧ eigsh_lanczos A args initial_state shape dtype num_krylov_vecs numeig
         tol delta ndiag reorthogonalize st
       = (inl (ValueError num_krylov_vecs_ge_numeig_required), st))
  ∧ ((numeig ≤ num_krylov_vecs)%Z →
       (eigs A args initial_state shape dtype num_krylov_vecs numeig tol
          which maxiter st).1
       ≠ inl (ValueError num_krylov_vecs_ge_numeig_required)
       ∧ (eigsh_lanczos A args initial_state shape dtype num_krylov_vecs
            numeig tol delta ndiag reorthogonalize st).1
         ≠ inl (ValueError num_krylov_vecs_ge_numeig_required)).
Proof.
  split.
  - intros H. split.
    + unfold eigs_checks.
      destruct (bool_decide (which ∈ ["SI"; "LI"; "SM"; "SR"])) eqn:Hw.
      * eexists. apply eigs_raises_unchanged. unfold eigs_checks.
        by rewrite Hw.
      * eexists. apply eigs_raises_unchanged. unfold eigs_checks.
        by rewrite Hw, bool_decide_eq_true_2.
    + apply eigsh_lanczos_raises_unchanged. unfold eigsh_lanczos_checks.
      by rewrite bool_decide_eq_true_2 by lia.
  - intros H. split.
    + intros Hr%eigs_raises. unfold eigs_checks in Hr.
      case_bool_decide; [done|].
      rewrite bool_decide_eq_false_2 in Hr by lia.
      apply initial_state_checks_raise in Hr as [? | ?]; by simplify_eq.
    + intros Hr%eigsh_lanczos_raises. unfold eigsh_lanczos_checks in Hr.
      rewrite bool_decide_eq_false_2 in Hr by lia.
      destruct (_ && _); [done|].
      apply initial_state_checks_raise in Hr as [? | ?]; by simplify_eq.
Qed.

(** C6. With [numeig > 1] and a [reorthogonalize] that is not true,
    [eigsh_lanczos] raises a [ValueError] in the state it started from; the
    one it raises is that of the reorthogonalization check exactly when,
    besides, [num_krylov_vecs >= numeig]; and with [numeig = 1] or
    [reorthogonalize = True] that check raises nothing. *)
Theorem reorthogonalize_required A args initial_state shape dtype
    num_krylov_vecs numeig tol delta ndiag reorthogonalize st :
  let result := eigsh_lanczos A args initial_state shape dtype num_krylov_vecs
                  numeig tol delta ndiag reorthogonalize st in
  ((numeig > 1)%Z → truthy reorthogonalize = false →
     ∃ m, result = (inl (ValueError m), st))
  ∧ ((∃ n, result.1 = inl (ValueError (numeig_needs_reorthogonalize n)))
     ↔ (numeig ≤ num_krylov_vecs)%Z
       ∧ (numeig > 1)%Z ∧ truthy reorthogonalize = false)
  ∧ (numeig = 1%Z ∨ reorthogonalize = Some true →
       ∀ n, result.1 ≠ inl (ValueError (numeig_needs_reorthogonalize n))).
Proof.
  cbv zeta.
  assert ((∃ n, (eigsh_lanczos A args initial_state shape dtype
                   num_krylov_vecs numeig tol delta ndiag reorthogonalize
                   st).1
                = inl (ValueError (numeig_needs_reorthogonalize n)))
          ↔ (numeig ≤ num_krylov_vecs)%Z
            ∧ (numeig > 1)%Z ∧ truthy reorthogonalize = false) as Hiff.
  { split.
    - intros [n Hn%eigsh_lanczos_raises]. unfold eigsh_lanczos_checks in Hn.
      case_bool_decide; [done|].
      destruct (bool_decide (numeig > 1)%Z && negb (truthy reorthogonalize))
        eqn:Hc.
      + apply andb_true_iff in Hc as [Hc1%bool_decide_eq_true Hc2].
        split_and!; [lia|done|]. by destruct (truthy reorthogonalize).
      + apply initial_state_checks_raise in Hn as [? | ?]; by simplify_eq.
    - intros (H1 & H2 & H3). exists numeig. apply eigsh_lanczos_raises.
      unfold eigsh_lanczos_checks.
      rewrite bool_decide_eq_false_2 by lia.
      by rewrite (bool_decide_eq_true_2 _ H2), H3. }
  split_and!.
  - intros H1 H2. unfold eigsh_lanczos_checks.
    destruct (bool_decide (num_krylov_vecs < numeig)%Z) eqn:Hk.
    + eexists. apply eigsh_lanczos_raises_unchanged.
      unfold eigsh_lanczos_checks. by rewrite Hk.
    + eexists. apply eigsh_lanczos_raises_unchanged.
      unfold eigsh_lanczos_checks.
      by rewrite Hk, (bool_decide_eq_true_2 _ H1), H2.
  - exact Hiff.
  - intros H n Hn. apply proj1 in Hiff.
    destruct (Hiff (ex_intro _ n Hn)) as (_ & H2 & H3).
    destruct H as [-> | ->]; [lia|done].
Qed.

(** ** The argument checks of gmres, claim by claim *)

Lemma gmres_checks_num_krylov_vectors b A_kwargs x0 tol atol
    num_krylov_vectors M :
  (∃ n s, gmres_checks b A_kwargs x0 tol atol num_krylov_vectors M
          = Some (ValueError (num_krylov_vectors_must_be_in n s)))
  ↔ x0_matches b x0
    ∧ ¬ (0 < krylov_size b num_krylov_vectors ≤ Z.of_nat (size b))%Z.
Proof.
  assert ((∃ n s, gmres_checks_after_x0 b A_kwargs tol atol
                    num_krylov_vectors M
                  = Some (ValueError (num_krylov_vectors_must_be_in n s)))
          ↔ ¬ (0 < krylov_size b num_krylov_vectors ≤ Z.of_nat (size b))%Z)
    as Hrest.
  { destruct (gmres_checks_after_x0_cases b A_kwargs tol atol
                num_krylov_vectors M)
      as [[Hn ->] | [Hn [[Ht ->] | [(Ht & Ha & ->) | (Ht & Ha & H)]]]];
      cbv zeta in *.
    - split; [done|eauto].
    - split; [by intros (? & ? & [=])|done].
    - split; [by intros (? & ? & [=])|done].
    - destruct H as [[_ ->] | [(_ & _ & ->) | (_ & _ & ->)]];
        (split; [by intros (? & ? & [=])|done]). }
  unfold gmres_checks. destruct x0 as [x|].
  - case_bool_decide as Hs.
    { split; [by intros (? & ? & [=])|]. intros [Hx _]. by destruct (Hx x). }
    case_bool_decide as Hd.
    { split; [by intros (? & ? & [=])|]. intros [Hx _]. by destruct (Hx x). }
    rewrite Hrest. split; [|tauto]. intros ?. split; [|done].
    by intros ? [= <-].
  - rewrite Hrest. split; [|tauto]. intros ?. split; [|done]. by intros ? [=].
Qed.

(** C7. Left out, [num_krylov_vectors] stands for [b.size]. A supplied value
    that is not positive or exceeds [b.size] makes [gmres] raise a
    [ValueError] in the state it started from; a value with
    [0 < num_krylov_vectors <= b.size] never makes it raise the [ValueError]
    of this check, which is raised exactly when [x0] has passed its own
    checks and the value is out of range. *)
Theorem num_krylov_vectors_range A_mv b A_args A_kwargs x0 tol atol maxiter M
    st :
  gmres A_mv b A_args A_kwargs x0 tol atol None maxiter M st
  = gmres A_mv b A_args A_kwargs x0 tol atol (Some (Z.of_nat (size b)))
      maxiter M st
  ∧ ∀ n : Z,
      let result := gmres A_mv b A_args A_kwargs x0 tol atol (Some n) maxiter
                      M st in
      ((n ≤ 0 ∨ Z.of_nat (size b) < n)%Z →
         ∃ m, result = (inl (ValueError m), st))
      ∧ ((0 < n ≤ Z.of_nat (size b))%Z →
           ∀ n' s,
             result.1 ≠ inl (ValueError (num_krylov_vectors_must_be_in n' s)))
      ∧ ((∃ n' s, result.1
                  = inl (ValueError (num_krylov_vectors_must_be_in n' s)))
         ↔ x0_matches b x0 ∧ (n ≤ 0 ∨ Z.of_nat (size b) < n)%Z).
Proof.
  split; [by rewrite !gmres_stages|].
  intros n. cbv zeta.
  pose proof (gmres_checks_num_krylov_vectors b A_kwargs x0 tol atol
                (Some n) M) as Hiff.
  change (krylov_size b (Some n)) with n in Hiff.
  split_and!.
  - intros Hn.
    destruct (gmres_checks_cases b A_kwargs x0 tol atol (Some n) M)
      as [[_ [m Hm]] | [(_ & Hv & _) _]]; cbv zeta in *.
    + exists m. by apply gmres_raises_unchanged.
    + change (krylov_size b (Some n)) with n in Hv. lia.
  - intros Hn n' s Hr%gmres_raises.
    apply proj1 in Hiff. destruct Hiff as [_ Hiff]; [by eauto|]. lia.
  - split.
    + intros (n' & s & Hr%gmres_raises).
      apply proj1 in Hiff. destruct Hiff as [? ?]; [by eauto|].
      split; [done|lia].
    + intros [Hx Hn]. apply proj2 in Hiff.
      destruct Hiff as (n' & s & Hr); [split; [done|lia]|].
      exists n', s. by apply gmres_raises.
Qed.

(** C8, as the code has it. [gmres] raises [NotImplementedError] exactly when
    a preconditioner [M] or keyword arguments [A_kwargs] are supplied and the
    four [ValueError] checks that come first all pass; it is then still in
    the state it started from. When one of those checks fails, a
    [ValueError] is what is raised, whatever [M] and [A_kwargs] are. With
    neither supplied, no [NotImplementedError] is raised. *)
Theorem unsupported_feature_after_value_checks A_mv b A_args A_kwargs x0 tol
    atol num_krylov_vectors maxiter M st :
  let result := gmres A_mv b A_args A_kwargs x0 tol atol num_krylov_vectors
                  maxiter M st in
  ((∃ m, result.1 = inl (NotImplementedError m))
   ↔ gmres_values_valid b x0 tol atol num_krylov_vectors
     ∧ (M ≠ None ∨ A_kwargs ≠ None))
  ∧ (gmres_values_valid b x0 tol atol num_krylov_vectors →
     M ≠ None ∨ A_kwargs ≠ None →
     ∃ m, result = (inl (NotImplementedError m), st))
  ∧ (¬ gmres_values_valid b x0 tol atol num_krylov_vectors →
     ∃ m, result = (inl (ValueError m), st))
  ∧ (M = None → A_kwargs = None →
     ∀ m, result.1 ≠ inl (NotImplementedError m)).
Proof.
  cbv zeta.
  destruct (gmres_checks_cases b A_kwargs x0 tol atol num_krylov_vectors M)
    as [[Hv [m Hm]]
       | [Hv [[HM Hm] | [(HM & Hkw & Hm) | (HM & Hkw & Hm)]]]];
    cbv zeta in *.
  all: pose proof (gmres_raises_unchanged A_mv b A_args A_kwargs x0 tol atol
                     num_krylov_vectors maxiter M st) as Hu;
    setoid_rewrite gmres_raises; rewrite Hm.
  - split_and!.
    + split; [by intros (? & [=])|tauto].
    + tauto.
    + intros _. exists m. by apply Hu.
    + by intros _ _ ? [=].
  - split_and!.
    + split; [by auto|by eauto].
    + intros _ _. eexists. by apply Hu.
    + tauto.
    + done.
  - split_and!.
    + split; [by auto|by eauto].
    + intros _ _. eexists. by apply Hu.
    + tauto.
    + done.
  - split_and!.
    + split; [by intros (? & [=])|]. by intros [_ [? | ?]].
    + by intros _ [? | ?].
    + tauto.
    + by intros _ _ ? [=].
Qed.

(** C10, as the code has it. [gmres] raises the [NotImplementedError] for
    [A_kwargs] exactly when [A_kwargs] is anything but [None], no [M] is
    supplied and the four [ValueError] checks all pass; the empty dictionary
    is rejected like any other. With [A_kwargs = None] this exception is
    never raised; with a [ValueError] check failing it is not raised either,
    whatever [A_kwargs] is. *)
Theorem A_kwargs_rejected_unless_None A_mv b A_args A_kwargs x0 tol atol
    num_krylov_vectors maxiter M st :
  let result := gmres A_mv b A_args A_kwargs x0 tol atol num_krylov_vectors
                  maxiter M st in
  (result.1 = inl (NotImplementedError A_kwargs_not_supported)
   ↔ gmres_values_valid b x0 tol atol num_krylov_vectors
     ∧ M = None ∧ A_kwargs ≠ None)
  ∧ (gmres_values_valid b x0 tol atol num_krylov_vectors → M = None →
     A_kwargs ≠ None →
     result = (inl (NotImplementedError A_kwargs_not_supported), st))
  ∧ (gmres_values_valid b x0 tol atol num_krylov_vectors → M = None →
     gmres A_mv b A_args (Some []) x0 tol atol num_krylov_vectors maxiter M st
     = (inl (NotImplementedError A_kwargs_not_supported), st))
  ∧ (A_kwargs = None →
     result.1 ≠ inl (NotImplementedError A_kwargs_not_supported)).
Proof.
  cbv zeta.
  assert (∀ kw,
    (gmres A_mv b A_args kw x0 tol atol num_krylov_vectors maxiter M st).1
    = inl (NotImplementedError A_kwargs_not_supported)
    ↔ gmres_values_valid b x0 tol atol num_krylov_vectors
      ∧ M = None ∧ kw ≠ None) as Hiff.
  { intros kw. rewrite gmres_raises.
    destruct (gmres_checks_cases b kw x0 tol atol num_krylov_vectors M)
      as [[Hv [m ->]]
         | [Hv [[HM ->] | [(HM & Hkw & ->) | (HM & Hkw & ->)]]]].
    - split; [done|tauto].
    - split; [done|]. by intros (_ & ? & _).
    - done.
    - split; [done|]. by intros (_ & _ & ?). }
  assert (∀ kw,
    gmres_values_valid b x0 tol atol num_krylov_vectors → M = None →
    kw ≠ None →
    gmres A_mv b A_args kw x0 tol atol num_krylov_vectors maxiter M st
    = (inl (NotImplementedError A_kwargs_not_supported), st)) as Hraise.
  { intros kw Hv HM Hkw.
    apply gmres_raises_unchanged, (gmres_raises A_mv b A_args kw x0 tol atol
                                     num_krylov_vectors maxiter M st).
    by apply Hiff. }
  split_and!.
  - apply Hiff.
  - apply Hraise.
  - intros Hv HM. by apply Hraise.
  - intros HA H. apply Hiff in H as (_ & _ & ?). done.
Qed.

(** * The theorems at sample inputs *)


Lemma caches_only_grow_witness :
  _CACHED_MATVECS after_eigs_A1 !! py_id A1
  = Some (Partial (jit (function A1)))
  ∧ _CACHED_MATVECS (run [gmres_A1; eigs_A2_SM; lanczos_A2] after_eigs_A1)
    !! py_id A1 = Some (Partial (jit (function A1)))
  ∧ _CACHED_FUNCTIONS after_eigs_A1 !! "imp_arnoldi"
    = Some _implicitly_restarted_arnoldi
  ∧ _CACHED_FUNCTIONS (run [gmres_A1; eigs_A2_SM; lanczos_A2] after_eigs_A1)
    !! "imp_arnoldi" = Some _implicitly_restarted_arnoldi.
Proof.
  destruct caches_only_grow as (_ & Hmatvecs & Hfunctions).
  split_and!.
  - reflexivity.
  - apply Hmatvecs. reflexivity.
  - reflexivity.
  - apply Hfunctions. reflexivity.
Defined.

Lemma errors_precede_caching_witness :
  perform eigs_A2_SM after_eigs_A1
  = (inl (ValueError (which_not_supported "SM")), after_eigs_A1)
  ∧ raised eigs_A2_SM = Some (ValueError (which_not_supported "SM"))
  ∧ _CACHED_MATVECS after_eigs_A1 !! py_id A2 = None.
Proof.
  assert (perform eigs_A2_SM after_eigs_A1
          = (inl (ValueError (which_not_supported "SM")), after_eigs_A1))
    as H by reflexivity.
  split_and!.
  - exact H.
  - exact (proj1 (errors_precede_caching _ _ _ _ H)).
  - reflexivity.
Defined.


Lemma eigs_which_rejected_witness :
  "SM" ∈ ["SI"; "LI"; "SM"; "SR"]
  ∧ eigs A2 (Some [H33]) (Some (jax_array vec3)) None None 50 6 tol_1e8 "SM"
      20 startup
    = (inl (ValueError (which_not_supported "SM")), startup).
Proof.
  assert ("SM" ∈ ["SI"; "LI"; "SM"; "SR"]) as H.
  { by apply (bool_decide_unpack _). }
  split; [exact H|].
  exact (proj1 (eigs_which_rejected A2 (Some [H33]) (Some (jax_array vec3))
                  None None 50 6 tol_1e8 "SM" 20 startup) H).
Defined.

(** C3, as stated, fails: 'XX' is neither 'LR' nor 'LM', and [eigs] raises
    nothing for it; the operator is stored and the routine applied with
    [which = 'XX']. *)
Lemma eigs_accepts_unlisted_which :
  "XX" ≠ "LR" ∧ "XX" ≠ "LM"
  ∧ ∃ r,
      eigs A1 (Some [H33]) (Some (jax_array vec3)) None None 50 6 tol_1e8
        "XX" 20 startup
      = (inr r,
         {| _CACHED_MATVECS := {[ 1%positive := Partial (jit (function A1)) ]};
            _CACHED_FUNCTIONS :=
              {[ "imp_arnoldi" := _implicitly_restarted_arnoldi ]};
            jax_calls := [libjax_jit (function A1);
                          tree_util_Partial (jit (function A1));
                          build _implicitly_restarted_arnoldi] |})
      ∧ application r
        = apply_arnoldi _implicitly_restarted_arnoldi
            (Partial (jit (function A1))) [H33] (jax_array vec3) 50 6 "XX"
            tol_1e8 20.
Proof.
  split_and!; [done|done|]. eexists. split; reflexivity.
Qed.

Lemma numeig_above_num_krylov_vecs_witness :
  (6 > 5)%Z
  ∧ (∃ m, eigs A1 (Some [H33]) (Some (jax_array vec3)) None None 5 6 tol_1e8
            "LR" 20 startup = (inl (ValueError m), startup))
  ∧ eigsh_lanczos A1 (Some [H33]) (Some (jax_array vec3)) None None 5 6
      tol_1e8 tol_1e8 10 (Some true) startup
    = (inl (ValueError num_krylov_vecs_ge_numeig_required), startup).
Proof.
  assert (6 > 5)%Z as H by lia.
  split; [exact H|].
  exact (proj1 (numeig_above_num_krylov_vecs A1 (Some [H33])
                  (Some (jax_array vec3)) None None 5 6 tol_1e8 "LR" 20
                  tol_1e8 10 (Some true) startup) H).
Defined.

Lemma reorthogonalize_required_witness :
  (2 > 1)%Z ∧ truthy (Some false) = false
  ∧ ∃ m, eigsh_lanczos A1 (Some [H33]) (Some (jax_array vec3)) None None 20 2
           tol_1e8 tol_1e8 10 (Some false) startup
         = (inl (ValueError m), startup).
Proof.
  assert (2 > 1)%Z as H by lia.
  split_and!; [exact H|reflexivity|].
  exact (proj1 (reorthogonalize_required A1 (Some [H33])
                  (Some (jax_array vec3)) None None 20 2 tol_1e8 tol_1e8 10
                  (Some false) startup) H eq_refl).
Defined.

Lemma num_krylov_vectors_range_witness :
  (4 ≤ 0 ∨ Z.of_nat (size vec3) < 4)%Z
  ∧ ∃ m, gmres A1 vec3 (Some [H33]) None None tol_1e5 None (Some 4%Z)
           (Some 1%Z) None startup = (inl (ValueError m), startup).
Proof.
  assert (4 ≤ 0 ∨ Z.of_nat (size vec3) < 4)%Z as H.
  { right. vm_compute. reflexivity. }
  split; [exact H|].
  exact (proj1 (proj2 (num_krylov_vectors_range A1 vec3 (Some [H33]) None
                         None tol_1e5 None (Some 1%Z) None startup) 4%Z) H).
Defined.

Lemma unsupported_feature_after_value_checks_witness :
  gmres_values_valid vec3 None tol_1e5 None None
  ∧ (Some A2 ≠ None ∨ @None (list (string * PyObj)) ≠ None)
  ∧ ∃ m, gmres A1 vec3 (Some [H33]) None None tol_1e5 None None (Some 1%Z)
           (Some A2) startup = (inl (NotImplementedError m), startup).
Proof.
  assert (gmres_values_valid vec3 None tol_1e5 None None) as Hv.
  { by apply (bool_decide_unpack _). }
  assert (Some A2 ≠ None ∨ @None (list (string * PyObj)) ≠ None) as HM.
  { by left. }
  split_and!; [exact Hv|exact HM|].
  exact (proj1 (proj2 (unsupported_feature_after_value_checks A1 vec3
                         (Some [H33]) None None tol_1e5 None None (Some 1%Z)
                         (Some A2) startup)) Hv HM).
Defined.

(** C8, as stated, fails: a preconditioner is supplied, and what [gmres]
    raises for the negative [tol] that comes with it is a [ValueError]. *)
Lemma M_supplied_with_negative_tol :
  Some A2 ≠ None
  ∧ gmres A1 vec3 (Some [H33]) None None (finite (-1 # 100000)) None None
      (Some 1%Z) (Some A2) startup
    = (inl (ValueError (tol_must_be_positive (finite (-1 # 100000)))), startup)
  ∧ ¬ ∃ m, (gmres A1 vec3 (Some [H33]) None None (finite (-1 # 100000)) None
              None (Some 1%Z) (Some A2) startup).1
           = inl (NotImplementedError m).
Proof.
  split_and!; [done|reflexivity|]. by intros [m [=]].
Qed.

Lemma A_kwargs_rejected_unless_None_witness :
  gmres_values_valid vec3 None tol_1e5 None None
  ∧ gmres A1 vec3 (Some [H33]) (Some []) None tol_1e5 None None (Some 1%Z)
      None startup
    = (inl (NotImplementedError A_kwargs_not_supported), startup).
Proof.
  assert (gmres_values_valid vec3 None tol_1e5 None None) as Hv.
  { by apply (bool_decide_unpack _). }
  split; [exact Hv|].
  exact (proj1 (proj2 (proj2 (A_kwargs_rejected_unless_None A1 vec3
                                (Some [H33]) None None tol_1e5 None None
                                (Some 1%Z) None startup))) Hv eq_refl).
Defined.

(** C10, as stated, fails: [A_kwargs] is the empty dictionary, and what
    [gmres] raises for the [x0] of another shape that comes with it is a
    [ValueError]. *)
Lemma empty_A_kwargs_with_mismatched_x0 :
  Some ([] : list (string * PyObj)) ≠ None
  ∧ gmres A1 vec3 (Some [H33]) (Some []) (Some vec2) tol_1e5 None None
      (Some 1%Z) None startup
    = (inl (ValueError (x0_shape_must_match [2] [3])), startup)
  ∧ ¬ ∃ m, (gmres A1 vec3 (Some [H33]) (Some []) (Some vec2) tol_1e5 None
              None (Some 1%Z) None startup).1
           = inl (NotImplementedError m).
Proof.
  split_and!; [done|reflexivity|]. by intros [m [=]].
Qed.

(** * Further properties of the entry points *)

(** ** When the checks pass *)

Lemma initial_state_checks_pass (initial_state : option PyObj)
    (shape : option (list nat)) (dtype : option DType) v :
  match initial_state, shape, dtype with
  | Some v, _, _ =>
      if isinstance_jnp_ndarray v then inr v
      else inl (TypeError (expected_jax_array (type_of v)))
  | None, Some shape, Some dtype => inr (jax_array (randn shape (Some dtype)))
  | None, _, _ => inl (ValueError shape_and_dtype_required)
  end = inr v
  ↔ (initial_state = Some v ∧ isinstance_jnp_ndarray v = true)
    ∨ (initial_state = None
       ∧ ∃ s d, shape = Some s ∧ dtype = Some d
                ∧ v = jax_array (randn s (Some d))).
Proof.
  destruct initial_state as [v'|].
  - destruct (isinstance_jnp_ndarray v') eqn:Hv.
    + split.
      * intros [= <-]. by left.
      * intros [[H _] | [H _]]; by simplify_eq.
    + split; [done|]. intros [[H ?] | [H _]]; simplify_eq. congruence.
  - destruct shape as [s|], dtype as [d|].
    + split.
      * intros [= <-]. right. split; [done|]. by exists s, d.
      * intros [[H _] | [_ (? & ? & ? & ? & ->)]]; by simplify_eq.
    + split; [done|]. intros [[H _] | [_ (? & ? & ? & ? & _)]]; by simplify_eq.
    + split; [done|]. intros [[H _] | [_ (? & ? & ? & ? & _)]]; by simplify_eq.
    + split; [done|]. intros [[H _] | [_ (? & ? & ? & ? & _)]]; by simplify_eq.
Qed.

Lemma eigs_checks_pass which numeig num_krylov_vecs initial_state shape dtype
    v :
  eigs_checks which numeig num_krylov_vecs initial_state shape dtype = inr v
  ↔ (which ∉ ["SI"; "LI"; "SM"; "SR"]) ∧ (numeig ≤ num_krylov_vecs)%Z
    ∧ ((initial_state = Some v ∧ isinstance_jnp_ndarray v = true)
       ∨ (initial_state = None
          ∧ ∃ s d, shape = Some s ∧ dtype = Some d
                   ∧ v = jax_array (randn s (Some d)))).
Proof.
  unfold eigs_checks. case_bool_decide as Hw; [split; [done|tauto]|].
  case_bool_decide as Hn; [split; [done|]; intros (_ & ? & _); lia|].
  rewrite initial_state_checks_pass. split; [|tauto].
  intros ?. split_and!; [done|lia|done].
Qed.

Lemma eigsh_lanczos_checks_pass numeig num_krylov_vecs reorthogonalize
    initial_state shape dtype v :
  eigsh_lanczos_checks numeig num_krylov_vecs reorthogonalize initial_state
    shape dtype = inr v
  ↔ (numeig ≤ num_krylov_vecs)%Z
    ∧ ((numeig ≤ 1)%Z ∨ truthy reorthogonalize = true)
    ∧ ((initial_state = Some v ∧ isinstance_jnp_ndarray v = true)
       ∨ (initial_state = None
          ∧ ∃ s d, shape = Some s ∧ dtype = Some d
                   ∧ v = jax_array (randn s (Some d)))).
Proof.
  unfold eigsh_lanczos_checks.
  case_bool_decide as Hn; [split; [done|]; intros (? & _); lia|].
  destruct (bool_decide (numeig > 1)%Z && negb (truthy reorthogonalize))
    eqn:Hc.
  - apply andb_true_iff in Hc as [Hc1%bool_decide_eq_true Hc2].
    split; [done|]. intros (_ & [? | Ht] & _); [lia|].
    by rewrite Ht in Hc2.
  - apply andb_false_iff in Hc.
    rewrite initial_state_checks_pass. split; [|tauto].
    intros ?. split_and!; [lia| |done].
    destruct Hc as [Hc%bool_decide_eq_false | Hc]; [left; lia|right].
    by destruct (truthy reorthogonalize).
Qed.

(** X1. [eigs] gets to its routine exactly when [which] is none of the four
    rejected criteria, [numeig <= num_krylov_vecs], and the initial state is
    a jax array or, left out, comes with both a shape and a dtype. Nothing
    else is asked of the arguments: neither count has to be positive. *)
Theorem eigs_applies_iff A args initial_state shape dtype num_krylov_vecs
    numeig tol which maxiter st :
  (∃ r st', eigs A args initial_state shape dtype num_krylov_vecs numeig tol
              which maxiter st = (inr r, st'))
  ↔ (which ∉ ["SI"; "LI"; "SM"; "SR"]) ∧ (numeig ≤ num_krylov_vecs)%Z
    ∧ match initial_state with
      | Some v => isinstance_jnp_ndarray v = true
      | None => is_Some shape ∧ is_Some dtype
      end.
Proof.
  rewrite eigs_stages.
  destruct (eigs_checks which numeig num_krylov_vecs initial_state shape
              dtype) as [e|v] eqn:Hc.
  - split; [by intros (? & ? & [=])|]. intros (Hw & Hn & Hi).
    assert (∃ v, eigs_checks which numeig num_krylov_vecs initial_state shape
                   dtype = inr v) as [v Hv]; [|congruence].
    destruct initial_state as [v|].
    + exists v. apply eigs_checks_pass. split_and!; [done..|]. by left.
    + destruct Hi as [[s ->] [d ->]]. eexists. apply eigs_checks_pass.
      split_and!; [done..|]. right. split; [done|]. by exists s, d.
  - split; [|by eauto]. intros _.
    apply eigs_checks_pass in Hc as (Hw & Hn & [[-> Hv] | [-> Hv]]);
      [done|].
    destruct Hv as (s & d & -> & -> & _). by eauto.
Qed.

(** X2. [eigsh_lanczos] gets to its routine exactly when
    [numeig <= num_krylov_vecs], [numeig <= 1] or [reorthogonalize] is true,
    and the initial state is a jax array or, left out, comes with both a
    shape and a dtype. *)
Theorem eigsh_lanczos_applies_iff A args initial_state shape dtype
    num_krylov_vecs numeig tol delta ndiag reorthogonalize st :
  (∃ r st', eigsh_lanczos A args initial_state shape dtype num_krylov_vecs
              numeig tol delta ndiag reorthogonalize st = (inr r, st'))
  ↔ (numeig ≤ num_krylov_vecs)%Z
    ∧ ((numeig ≤ 1)%Z ∨ truthy reorthogonalize = true)
    ∧ match initial_state with
      | Some v => isinstance_jnp_ndarray v = true
      | None => is_Some shape ∧ is_Some dtype
      end.
Proof.
  rewrite eigsh_lanczos_stages.
  destruct (eigsh_lanczos_checks numeig num_krylov_vecs reorthogonalize
              initial_state shape dtype) as [e|v] eqn:Hc.
  - split; [by intros (? & ? & [=])|]. intros (Hn & Hr & Hi).
    assert (∃ v, eigsh_lanczos_checks numeig num_krylov_vecs reorthogonalize
                   initial_state shape dtype = inr v) as [v Hv];
      [|congruence].
    destruct initial_state as [v|].
    + exists v. apply eigsh_lanczos_checks_pass.
      split_and!; [done..|]. by left.
    + destruct Hi as [[s ->] [d ->]]. eexists.
      apply eigsh_lanczos_checks_pass. split_and!; [done..|].
      right. split; [done|]. by exists s, d.
  - split; [|by eauto]. intros _.
    apply eigsh_lanczos_checks_pass in Hc
      as (Hn & Hr & [[-> Hv] | [-> Hv]]); [done|].
    destruct Hv as (s & d & -> & -> & _). by eauto.
Qed.

(** X3. [gmres] gets to its routine exactly when the four [ValueError]
    checks pass and neither [M] nor [A_kwargs] is supplied. *)
Theorem gmres_applies_iff A_mv b A_args A_kwargs x0 tol atol
    num_krylov_vectors maxiter M st :
  (∃ r st', gmres A_mv b A_args A_kwargs x0 tol atol num_krylov_vectors
              maxiter M st = (inr r, st'))
  ↔ gmres_values_valid b x0 tol atol num_krylov_vectors
    ∧ M = None ∧ A_kwargs = None.
Proof.
  rewrite gmres_stages.
  destruct (gmres_checks_cases b A_kwargs x0 tol atol num_krylov_vectors M)
    as [[Hv [m ->]]
       | [Hv [[HM ->] | [(HM & Hkw & ->) | (HM & Hkw & ->)]]]].
  - split; [by intros (? & ? & [=])|tauto].
  - split; [by intros (? & ? & [=])|]. by intros (_ & ? & _).
  - split; [by intros (? & ? & [=])|]. by intros (_ & _ & ?).
  - split; [done|]. intros _. cbv zeta. by eauto.
Qed.

(** ** What reaches the routine *)



(** ** The checks on the initial state *)

Lemma initial_state_checks_raise_iff (initial_state : option PyObj)
    (shape : option (list nat)) (dtype : option DType) e :
  match initial_state, shape, dtype with
  | Some v, _, _ =>
      if isinstance_jnp_ndarray v then inr v
      else inl (TypeError (expected_jax_array (type_of v)))
  | None, Some shape, Some dtype => inr (jax_array (randn shape (Some dtype)))
  | None, _, _ => inl (ValueError shape_and_dtype_required)
  end = inl e
  ↔ (e = ValueError shape_and_dtype_required
     ∧ initial_state = None ∧ (shape = None ∨ dtype = None))
    ∨ (∃ v, e = TypeError (expected_jax_array (type_of v))
            ∧ initial_state = Some v ∧ isinstance_jnp_ndarray v = false).
Proof.
  destruct initial_state as [v|].
  - destruct (isinstance_jnp_ndarray v) eqn:Hv.
    + split; [done|].
      intros [(_ & ? & _) | (v' & _ & ? & ?)]; simplify_eq. congruence.
    + split.
      * intros [= <-]. right. by exists v.
      * intros [(_ & ? & _) | (v' & -> & ? & _)]; by simplify_eq.
  - destruct shape as [s|], dtype as [d|].
    + split; [done|].
      intros [(_ & _ & [? | ?]) | (v' & _ & ? & _)]; by simplify_eq.
    + split; [intros [= <-]; left; by auto|].
      intros [(-> & _) | (v' & _ & ? & _)]; by simplify_eq.
    + split; [intros [= <-]; left; by auto|].
      intros [(-> & _) | (v' & _ & ? & _)]; by simplify_eq.
    + split; [intros [= <-]; left; by auto|].
      intros [(-> & _) | (v' & _ & ? & _)]; by simplify_eq.
Qed.

(** X6. Once the checks on [which] and the counts have passed, [eigs] and
    [eigsh_lanczos] raise the [ValueError] asking for [shape] and [dtype]
    exactly when no initial state is given and one of the two is missing,
    and a [TypeError] exactly when an initial state is given that is not a
    jax array (a numpy array, say), naming its type. *)
Theorem initial_state_rejections A args initial_state shape dtype
    num_krylov_vecs numeig tol which maxiter delta ndiag reorthogonalize st
    e :
  (which ∉ ["SI"; "LI"; "SM"; "SR"] → (numeig ≤ num_krylov_vecs)%Z →
   ((eigs A args initial_state shape dtype num_krylov_vecs numeig tol which
       maxiter st).1 = inl e
    ↔ (e = ValueError shape_and_dtype_required
       ∧ initial_state = None ∧ (shape = None ∨ dtype = None))
      ∨ (∃ v, e = TypeError (expected_jax_array (type_of v))
              ∧ initial_state = Some v ∧ isinstance_jnp_ndarray v = false)))
  ∧ ((numeig ≤ num_krylov_vecs)%Z →
     (numeig ≤ 1)%Z ∨ truthy reorthogonalize = true →
     ((eigsh_lanczos A args initial_state shape dtype num_krylov_vecs numeig
         tol delta ndiag reorthogonalize st).1 = inl e
      ↔ (e = ValueError shape_and_dtype_required
         ∧ initial_state = None ∧ (shape = None ∨ dtype = None))
        ∨ (∃ v, e = TypeError (expected_jax_array (type_of v))
                ∧ initial_state = Some v
                ∧ isinstance_jnp_ndarray v = false))).
Proof.
  split.
  - intros Hw Hn. rewrite eigs_raises. unfold eigs_checks.
    rewrite (bool_decide_eq_false_2 _ Hw).
    rewrite bool_decide_eq_false_2 by lia.
    apply initial_state_checks_raise_iff.
  - intros Hn Hr. rewrite eigsh_lanczos_raises. unfold eigsh_lanczos_checks.
    rewrite bool_decide_eq_false_2 by lia.
    assert (bool_decide (numeig > 1)%Z && negb (truthy reorthogonalize)
            = false) as ->.
    { apply andb_false_iff. destruct Hr as [? | ->]; [left|by right].
      apply bool_decide_eq_false. lia. }
    apply initial_state_checks_raise_iff.
Qed.

(** X7. Arguments without effect. [eigsh_lanczos] does nothing with [tol]
    and [ndiag]: the outcome and the state are the same whatever they are.
    With an initial state supplied, [eigs] and [eigsh_lanczos] do nothing
    with [shape] and [dtype]. *)
Theorem inert_arguments A args initial_state shape dtype num_krylov_vecs
    numeig tol which maxiter delta ndiag reorthogonalize st :
  (∀ tol' ndiag',
     eigsh_lanczos A args initial_state shape dtype num_krylov_vecs numeig
       tol delta ndiag reorthogonalize st
     = eigsh_lanczos A args initial_state shape dtype num_krylov_vecs numeig
         tol' delta ndiag' reorthogonalize st)
  ∧ (∀ v shape' dtype',
       eigs A args (Some v) shape dtype num_krylov_vecs numeig tol which
         maxiter st
       = eigs A args (Some v) shape' dtype' num_krylov_vecs numeig tol which
           maxiter st)
  ∧ (∀ v shape' dtype',
       eigsh_lanczos A args (Some v) shape dtype num_krylov_vecs numeig tol
         delta ndiag reorthogonalize st
       = eigsh_lanczos A args (Some v) shape' dtype' num_krylov_vecs numeig
           tol delta ndiag reorthogonalize st).
Proof.
  split_and!.
  - intros tol' ndiag'. by rewrite !eigsh_lanczos_stages.
  - intros v shape' dtype'. by rewrite !eigs_stages.
  - intros v shape' dtype'. by rewrite !eigsh_lanczos_stages.
Qed.

(** ** The exceptions of each entry point *)

Lemma eigs_checks_classes which numeig num_krylov_vecs initial_state shape
    dtype e :
  eigs_checks which numeig num_krylov_vecs initial_state shape dtype = inl e →
  is_ValueError e || is_TypeError e = true.
Proof.
  unfold eigs_checks. case_bool_decide; [by intros [= <-]|].
  case_bool_decide; [by intros [= <-]|].
  intros [-> | ->]%initial_state_checks_raise; [done|]. apply orb_true_r.
Qed.

Lemma eigsh_lanczos_checks_classes numeig num_krylov_vecs reorthogonalize
    initial_state shape dtype e :
  eigsh_lanczos_checks numeig num_krylov_vecs reorthogonalize initial_state
    shape dtype = inl e →
  is_ValueError e || is_TypeError e = true.
Proof.
  unfold eigsh_lanczos_checks. case_bool_decide; [by intros [= <-]|].
  destruct (_ && _); [by intros [= <-]|].
  intros [-> | ->]%initial_state_checks_raise; [done|]. apply orb_true_r.
Qed.

(** X8. [eigs] and [eigsh_lanczos] raise nothing but [ValueError] and
    [TypeError], [gmres] nothing but [ValueError] and [NotImplementedError];
    in particular the lookups in the two dictionaries never fail with a
    [KeyError], in whatever state the call is made. *)
Theorem exception_classes c st e st' :
  perform c st = (inl e, st') →
  match c with
  | call_gmres _ _ _ _ _ _ _ _ _ _ =>
      is_ValueError e || is_NotImplementedError e = true
  | _ => is_ValueError e || is_TypeError e = true
  end
  ∧ e ≠ KeyError.
Proof.
  intros [Hr _]%perform_raise.
  assert (match c with
          | call_gmres _ _ _ _ _ _ _ _ _ _ =>
              is_ValueError e || is_NotImplementedError e = true
          | _ => is_ValueError e || is_TypeError e = true
          end) as H.
  { destruct c; unfold raised in Hr.
    - destruct (eigs_checks _ _ _ _ _ _) eqn:Hc; [|done].
      injection Hr as <-. by eapply eigs_checks_classes.
    - destruct (eigsh_lanczos_checks _ _ _ _ _ _) eqn:Hc; [|done].
      injection Hr as <-. by eapply eigsh_lanczos_checks_classes.
    - destruct (gmres_checks_cases b A_kwargs x0 tol atol num_krylov_vectors
                  M)
        as [[_ [m Hm]] | [_ [[_ Hm] | [(_ & _ & Hm) | (_ & _ & Hm)]]]];
        cbv zeta in Hm; rewrite Hm in Hr; by simplify_eq. }
  split; [exact H|]. intros ->. by destruct c.
Qed.

(** ** Tolerances, sizes and defaults of gmres *)

Lemma gmres_checks_after_x0_raise b A_kwargs x0 tol atol num_krylov_vectors M
    e :
  x0_matches b x0 →
  gmres_checks b A_kwargs x0 tol atol num_krylov_vectors M = e
  ↔ gmres_checks_after_x0 b A_kwargs tol atol num_krylov_vectors M = e.
Proof.
  intros Hx. unfold gmres_checks. destruct x0 as [x|]; [|done].
  destruct (Hx x eq_refl) as [Hs Hd].
  rewrite bool_decide_eq_false_2 by (intros ?; done).
  by rewrite bool_decide_eq_false_2 by (intros ?; done).
Qed.

Lemma gmres_checks_x0_mismatch b A_kwargs x0 tol atol num_krylov_vectors M :
  ¬ x0_matches b x0 →
  ∃ x, x0 = Some x
       ∧ (gmres_checks b A_kwargs x0 tol atol num_krylov_vectors M
          = Some (ValueError (x0_shape_must_match (shape x) (shape b)))
          ∨ gmres_checks b A_kwargs x0 tol atol num_krylov_vectors M
            = Some (ValueError (x0_dtype_must_match (dtype x) (dtype b)))).
Proof.
  intros Hx. unfold gmres_checks. destruct x0 as [x|].
  - exists x. split; [done|]. case_bool_decide; [by left|].
    case_bool_decide; [by right|].
    destruct Hx. intros ? [= <-]. split; (done || by apply dec_stable).
  - destruct Hx. by intros ? [=].
Qed.

(** X9. The tolerances of [gmres]. [atol] left out stands for [tol]. The
    [ValueError] for [tol] is raised exactly when the checks before it pass
    and [tol < 0], the one for [atol] exactly when moreover [tol] is not
    negative and the effective [atol] is; so a [tol] of zero or [nan] is not
    rejected, whatever the message says about positive. *)
Theorem gmres_tolerances A_mv b A_args A_kwargs x0 tol atol
    num_krylov_vectors maxiter M st :
  let result := gmres A_mv b A_args A_kwargs x0 tol atol num_krylov_vectors
                  maxiter M st in
  let in_range :=
    (0 < krylov_size b num_krylov_vectors ≤ Z.of_nat (size b))%Z in
  gmres A_mv b A_args A_kwargs x0 tol None num_krylov_vectors maxiter M st
  = gmres A_mv b A_args A_kwargs x0 tol (Some tol) num_krylov_vectors maxiter
      M st
  ∧ ((∃ t, result.1 = inl (ValueError (tol_must_be_positive t)))
     ↔ x0_matches b x0 ∧ in_range ∧ lt_zero tol = true)
  ∧ ((∃ t, result.1 = inl (ValueError (atol_must_be_positive t)))
     ↔ x0_matches b x0 ∧ in_range ∧ lt_zero tol = false
       ∧ lt_zero (default tol atol) = true)
  ∧ (tol = finite 0 ∨ tol = nan →
     ∀ t, result.1 ≠ inl (ValueError (tol_must_be_positive t))).
Proof.
  cbv zeta.
  assert ((∃ t, (gmres A_mv b A_args A_kwargs x0 tol atol num_krylov_vectors
                   maxiter M st).1
                = inl (ValueError (tol_must_be_positive t)))
          ↔ x0_matches b x0
            ∧ (0 < krylov_size b num_krylov_vectors ≤ Z.of_nat (size b))%Z
            ∧ lt_zero tol = true) as Htol.
  { setoid_rewrite gmres_raises.
    destruct (decide (x0_matches b x0)) as [Hx|Hx].
    - setoid_rewrite (gmres_checks_after_x0_raise _ _ _ _ _ _ _ _ Hx).
      destruct (gmres_checks_after_x0_cases b A_kwargs tol atol
                  num_krylov_vectors M)
        as [[Hn ->] | [Hn [[Ht ->] | [(Ht & Ha & ->) | (Ht & Ha & H)]]]];
        cbv zeta in *.
      + split; [by intros (? & [=])|tauto].
      + split; [done|]. by eauto.
      + split; [by intros (? & [=])|]. intros (_ & _ & ?). congruence.
      + split; [|intros (_ & _ & ?); congruence].
        destruct H as [[_ ->] | [(_ & _ & ->) | (_ & _ & ->)]];
          by intros (? & [=]).
    - destruct (gmres_checks_x0_mismatch b A_kwargs x0 tol atol
                  num_krylov_vectors M Hx) as (x & _ & [-> | ->]);
        (split; [by intros (? & [=])|tauto]). }
  split_and!.
  - by rewrite !gmres_stages.
  - exact Htol.
  - setoid_rewrite gmres_raises.
    destruct (decide (x0_matches b x0)) as [Hx|Hx].
    + setoid_rewrite (gmres_checks_after_x0_raise _ _ _ _ _ _ _ _ Hx).
      destruct (gmres_checks_after_x0_cases b A_kwargs tol atol
                  num_krylov_vectors M)
        as [[Hn ->] | [Hn [[Ht ->] | [(Ht & Ha & ->) | (Ht & Ha & H)]]]];
        cbv zeta in *.
      * split; [by intros (? & [=])|tauto].
      * split; [by intros (? & [=])|]. intros (_ & _ & ? & _). congruence.
      * split; [done|]. by eauto.
      * split; [|intros (_ & _ & _ & ?); congruence].
        destruct H as [[_ ->] | [(_ & _ & ->) | (_ & _ & ->)]];
          by intros (? & [=]).
    + destruct (gmres_checks_x0_mismatch b A_kwargs x0 tol atol
                  num_krylov_vectors M Hx) as (x & _ & [-> | ->]);
        (split; [by intros (? & [=])|tauto]).
  - intros Hz t Ht. apply proj1 in Htol.
    destruct Htol as (_ & _ & Hneg); [by eauto|].
    by destruct Hz as [-> | ->].
Qed.

Lemma size_zero_dimension (b : ndarray) : 0 ∈ shape b → size b = 0.
Proof.
  unfold size, ndarray_size. induction (shape b) as [|d l IH]; cbn.
  - by intros ?%elem_of_nil.
  - intros [<- | H]%elem_of_cons; [done|]. rewrite IH by done. lia.
Qed.

(** X10. A right-hand side [b] with a dimension of zero has no element, and
    [gmres] raises a [ValueError] for it whatever the other arguments are:
    no Krylov size, given or defaulted, lies in [0 < n <= 0]. *)
Theorem gmres_empty_b A_mv b A_args A_kwargs x0 tol atol num_krylov_vectors
    maxiter M st :
  0 ∈ shape b →
  size b = 0
  ∧ ∃ m, gmres A_mv b A_args A_kwargs x0 tol atol num_krylov_vectors maxiter
           M st = (inl (ValueError m), st).
Proof.
  intros Hb%size_zero_dimension. split; [done|].
  destruct (gmres_checks_cases b A_kwargs x0 tol atol num_krylov_vectors M)
    as [[_ [m Hm]] | [(_ & Hn & _) _]]; cbv zeta in *.
  - exists m. by apply gmres_raises_unchanged.
  - rewrite Hb in Hn. lia.
Qed.


(** ** Calls and states *)

(** X13. Whether a call raises, and what, is settled by its arguments alone:
    a call that raises in one state raises the same exception in every
    state, and a call that gets to its routine in one state does so in
    every state. *)
Theorem outcome_independent_of_state c st1 st2 :
  (∀ e, (perform c st1).1 = inl e → perform c st2 = (inl e, st2))
  ∧ ((∃ a, (perform c st1).1 = inr a) → ∃ a, (perform c st2).1 = inr a).
Proof.
  pose proof (perform_stages c st1) as H1.
  pose proof (perform_stages c st2) as H2.
  destruct (raised c) as [e'|].
  - rewrite H1, H2. split; [by intros e [= <-]|]. by intros [a [=]].
  - destruct H1 as (a1 & -> & _), H2 as (a2 & -> & _).
    split; [by intros e [=]|]. by eauto.
Qed.





(** ** What the dictionaries hold *)

Lemma well_keyed_startup : well_keyed startup.
Proof. split; intros ? ?; cbn; by rewrite lookup_empty. Qed.

Lemma wraps_operator_wrapped_form c :
  wraps_operator (py_id (operator c)) (wrapped_form c).
Proof.
  exists (operator c). split; [done|]. destruct c; (by left) || (by right).
Qed.

Lemma well_keyed_after c st : well_keyed st → well_keyed (after c st).
Proof.
  intros [Hf Hm]. split.
  - intros name r.
    destruct (after_FUNCTIONS_cases c st) as [-> | [_ ->]]; [by apply Hf|].
    destruct (decide ((algorithm c).1 = name)) as [<-|Hne].
    + rewrite lookup_insert_eq. intros [= <-]. by rewrite key_algorithm.
    + rewrite lookup_insert_ne by done. by apply Hf.
  - intros i w.
    destruct (after_MATVECS_cases c st) as [-> | [_ ->]]; [by apply Hm|].
    destruct (decide (py_id (operator c) = i)) as [<-|Hne].
    + rewrite lookup_insert_eq. intros [= <-].
      apply wraps_operator_wrapped_form.
    + rewrite lookup_insert_ne by done. by apply Hm.
Qed.

Lemma well_keyed_run calls st : well_keyed st → well_keyed (run calls st).
Proof.
  intros H. induction calls as [|c calls IH] using rev_ind; [done|].
  rewrite run_snoc. destruct (perform_state c (run calls st)) as [-> | ->];
    [done|]. by apply well_keyed_after.
Qed.

(** X15. In a process, whatever calls were made before, a routine is only
    ever kept under its own key, so each entry point applies its own
    routine: [eigs] the implicitly restarted Arnoldi one, [eigsh_lanczos]
    the Lanczos one, [gmres] the GMRES one; and [_CACHED_FUNCTIONS] never
    holds more than these three. *)
Theorem each_entry_point_applies_its_routine calls :
  (∀ name r, _CACHED_FUNCTIONS (run calls startup) !! name = Some r →
             name = key r)
  ∧ size (_CACHED_FUNCTIONS (run calls startup)) ≤ 3
  ∧ ∀ c a st', perform c (run calls startup) = (inr a, st') →
               routine_of a = (algorithm c).2.
Proof.
  destruct (well_keyed_run calls startup well_keyed_startup) as [Hf _].
  split_and!.
  - exact Hf.
  - rewrite <- size_dom.
    transitivity (size ({["imp_arnoldi"; "eigsh_lanczos"; "gmres_f"]}
                        : gset string)); [|done].
    apply subseteq_size. intros name [r Hr]%elem_of_dom.
    apply Hf in Hr as ->. destruct r; set_solver.
  - intros c a st' (_ & _ & _ & ->)%perform_return.
    destruct (_CACHED_FUNCTIONS (run calls startup) !! (algorithm c).1)
      as [r|] eqn:Hr; [|done].
    cbn. apply Hf in Hr. rewrite <- key_algorithm in Hr.
    by apply key_inj in Hr.
Qed.


(** ** Sizes *)

Lemma count_app kind l1 l2 : count kind (l1 ++ l2) = count kind l1 + count kind l2.
Proof. unfold count. by rewrite filter_app, length_app. Qed.

Lemma counted_startup : counted startup.
Proof. unfold counted. cbn. by rewrite !map_size_empty. Qed.

Lemma counted_after c st : counted st → counted (after c st).
Proof.
  intros (HP & Hb & Hj). unfold counted.
  rewrite after_jax_calls, !count_app, HP, Hb.
  destruct (_CACHED_MATVECS st !! py_id (operator c)) as [w|] eqn:Hm;
    destruct (_CACHED_FUNCTIONS st !! (algorithm c).1) as [r|] eqn:Hf.
  all: rewrite ?(after_MATVECS_hit _ _ _ Hm), ?(after_MATVECS_miss _ _ Hm),
         ?(after_FUNCTIONS_hit _ _ _ Hf), ?(after_FUNCTIONS_miss _ _ Hf).
  all: rewrite ?map_size_insert_None by done.
  all: assert (count is_tree_util_Partial (wrap_calls c) = 1
               ∧ count is_build (wrap_calls c) = 0
               ∧ count is_libjax_jit (wrap_calls c) ≤ 1) as (HwP & Hwb & Hwj)
         by (destruct c; split_and!; try reflexivity; vm_compute; lia).
  all: rewrite ?HwP, ?Hwb.
  all: change (count is_tree_util_Partial []) with 0;
    change (count is_build []) with 0;
    change (count is_libjax_jit []) with 0;
    change (count is_tree_util_Partial [build (algorithm c).2]) with 0;
    change (count is_build [build (algorithm c).2]) with 1;
    change (count is_libjax_jit [build (algorithm c).2]) with 0.
  all: split_and!; lia.
Qed.

Lemma counted_run calls st : counted st → counted (run calls st).
Proof.
  intros H. induction calls as [|c calls IH] using rev_ind; [done|].
  rewrite run_snoc. destruct (perform_state c (run calls st)) as [-> | ->];
    [done|]. by apply counted_after.
Qed.

(** X17. In a process, whatever calls were made, [_CACHED_MATVECS] holds as
    many entries as [Partial] was called, [_CACHED_FUNCTIONS] as many as
    routines were built, and [libjax.jit] was called at most once per entry
    of [_CACHED_MATVECS]: a count of compilations is a count of entries. *)
Theorem entries_count_compilations calls :
  count is_tree_util_Partial (jax_calls (run calls startup))
  = size (_CACHED_MATVECS (run calls startup))
  ∧ count is_build (jax_calls (run calls startup))
    = size (_CACHED_FUNCTIONS (run calls startup))
  ∧ count is_libjax_jit (jax_calls (run calls startup))
    ≤ size (_CACHED_MATVECS (run calls startup)).
Proof. exact (counted_run calls startup counted_startup). Qed.

Lemma perform_size c st :
  size (_CACHED_MATVECS (perform c st).2) ≤ S (size (_CACHED_MATVECS st)).
Proof.
  destruct (perform_state c st) as [-> | ->]; [lia|].
  destruct (after_MATVECS_cases c st) as [-> | [Hc ->]]; [lia|].
  by rewrite map_size_insert_None.
Qed.

(** X18. Each call adds at most one entry to [_CACHED_MATVECS], and a call
    that raises adds none: after any sequence of calls the dictionary has
    grown by no more than the number of calls. Nothing ever shrinks it. *)
Theorem matvec_cache_growth calls st :
  size (_CACHED_MATVECS st) ≤ size (_CACHED_MATVECS (run calls st))
  ∧ size (_CACHED_MATVECS (run calls st))
    ≤ size (_CACHED_MATVECS st) + length calls.
Proof.
  split.
  - apply map_subseteq_size, run_grows.
  - induction calls as [|c calls IH] using rev_ind; [cbn; lia|].
    rewrite run_snoc, length_app. cbn.
    pose proof (perform_size c (run calls st)). lia.
Qed.

(** * The other methods of JaxBackend *)

(** ** Guards on the order of the arguments *)

(** X19. [expm] hands its argument to jax exactly when it is a square
    matrix; for an argument of another order it raises the [ValueError]
    about matrices, for a matrix that is not square the one naming its two
    dimensions. *)
Theorem expm_accepts_square_matrices (matrix : ndarray) :
  (Backend.expm matrix = inr (Backend.jsp_linalg_expm (Backend.array matrix))
   ↔ ∃ n, shape matrix = [n; n])
  ∧ (Backend.ndim matrix ≠ 2 →
     Backend.expm matrix
     = inl (Backend.ValueError (Backend.expm_only_matrices (shape matrix))))
  ∧ (∀ x y, shape matrix = [x; y] → x ≠ y →
     Backend.expm matrix
     = inl (Backend.ValueError (Backend.expm_only_N_by_N x y))).
Proof.
  unfold Backend.expm, Backend.ndim. split_and!.
  - split.
    + case_bool_decide as Hn; [done|]. case_bool_decide as Hs; [done|].
      intros _. destruct (shape matrix) as [|x [|y [|z l]]]; try done.
      cbn in Hs. exists x. try apply dec_stable in Hs. by simplify_eq.
    + intros [n ->]. cbn. rewrite bool_decide_eq_false_2 by (intros ?; done).
      by rewrite bool_decide_eq_false_2 by (intros ?; done).
  - intros Hn. by rewrite bool_decide_eq_true_2.
  - intros x y -> Hxy. cbn. rewrite bool_decide_eq_false_2 by (intros ?; done).
    rewrite bool_decide_eq_true_2; [done|]. by intros [= ?].
Qed.

(** X20. The guards of [inv], [diag], [matmul], [broadcast_right_multiplication]
    and [slice]. [inv] lets through every argument of order at most two,
    vectors, scalars and matrices that are not square included, so all that
    [expm] accepts and more; [diag] lets through orders one and two and
    raises a [TypeError], not a [ValueError], otherwise; [matmul] wants both
    arguments of order two at least; [broadcast_right_multiplication] wants
    its second argument of order one; [slice] only compares the lengths of
    its two lists, whatever the order of the tensor. *)
Theorem order_guards (tensor tensor' : ndarray)
    (start_indices slice_sizes : list Z) :
  (Backend.inv tensor = inr (Backend.jnp_linalg_inv (Backend.array tensor))
   ↔ Backend.ndim tensor ≤ 2)
  ∧ ((∃ e, Backend.expm tensor = inr e) → ∃ e, Backend.inv tensor = inr e)
  ∧ (Backend.diag tensor = inr (Backend.jnp_diag (Backend.array tensor))
     ↔ Backend.ndim tensor = 1 ∨ Backend.ndim tensor = 2)
  ∧ (Backend.ndim tensor ≠ 1 → Backend.ndim tensor ≠ 2 →
     Backend.diag tensor
     = inl (Backend.TypeError Backend.only_one_and_two_dimensional_tensors))
  ∧ (Backend.matmul tensor tensor'
     = inr (Backend.jnp_matmul (Backend.array tensor) (Backend.array tensor'))
     ↔ 2 ≤ Backend.ndim tensor ∧ 2 ≤ Backend.ndim tensor')
  ∧ (Backend.broadcast_right_multiplication tensor tensor'
     = inr (Backend.times (Backend.array tensor) (Backend.array tensor'))
     ↔ Backend.ndim tensor' = 1)
  ∧ (Backend.slice tensor start_indices slice_sizes
     = inr (Backend.lax_dynamic_slice (Backend.array tensor) start_indices
              slice_sizes)
     ↔ length start_indices = length slice_sizes).
Proof.
  assert (Backend.inv tensor
          = inr (Backend.jnp_linalg_inv (Backend.array tensor))
          ↔ Backend.ndim tensor ≤ 2) as Hinv.
  { unfold Backend.inv. case_bool_decide; (split; [done || lia|done || lia]). }
  split_and!.
  - exact Hinv.
  - intros [e He]. eexists. apply Hinv.
    unfold Backend.expm in He. case_bool_decide as Hn; [done|]. lia.
  - unfold Backend.diag. case_bool_decide as Hd.
    + split; [done|]. intros [H | H]; destruct Hd; rewrite H; repeat constructor.
    + split; [|done]. intros _. try apply dec_stable in Hd.
      apply elem_of_cons in Hd as [? | Hd]; [by left|].
      apply list_elem_of_singleton in Hd. by right.
  - intros H1 H2. unfold Backend.diag. rewrite bool_decide_eq_true_2; [done|].
    intros [? | Hd]%elem_of_cons; [done|].
    by apply list_elem_of_singleton in Hd.
  - unfold Backend.matmul.
    destruct (bool_decide (Backend.ndim tensor ≤ 1)
              || bool_decide (Backend.ndim tensor' ≤ 1)) eqn:Hc.
    + split; [done|]. intros [? ?].
      apply orb_true_iff in Hc as [?%bool_decide_eq_true
                                   | ?%bool_decide_eq_true]; lia.
    + split; [|done]. intros _.
      apply orb_false_iff in Hc as [?%bool_decide_eq_false
                                    ?%bool_decide_eq_false]. lia.
  - unfold Backend.broadcast_right_multiplication.
    case_bool_decide; (split; [done || lia|done || lia]).
  - unfold Backend.slice.
    case_bool_decide; (split; [done || lia|done || lia]).
Qed.

(** ** Reshaping *)






(** ** Seeds *)

Lemma seeded_nonzero (s : Z) g : s ≠ 0%Z → Backend.seeded (Some s) g = (s, g).
Proof.
  intros H. unfold Backend.seeded, Backend.not_seed.
  by rewrite bool_decide_eq_false_2.
Qed.

(** X23. The seed of [randn] and [random_uniform]. The seed zero is not
    used: it is treated as no seed at all, and like no seed it takes the
    next number from numpy's generator. Any other seed leaves that
    generator alone and settles the result: the tensor is the same whatever
    state the generator is in. *)
Theorem seed_zero_is_no_seed shape boundaries dtype g :
  Backend.randn shape dtype (Some 0%Z) g = Backend.randn shape dtype None g
  ∧ Backend.random_uniform shape boundaries dtype (Some 0%Z) g
    = Backend.random_uniform shape boundaries dtype None g
  ∧ Backend.taken (Backend.randn shape dtype None g).2 = S (Backend.taken g)
  ∧ Backend.taken (Backend.random_uniform shape boundaries dtype None g).2
    = S (Backend.taken g)
  ∧ ∀ s, s ≠ 0%Z →
      (Backend.randn shape dtype (Some s) g).2 = g
      ∧ (Backend.random_uniform shape boundaries dtype (Some s) g).2 = g
      ∧ ∀ g', (Backend.randn shape dtype (Some s) g').1
              = (Backend.randn shape dtype (Some s) g).1
              ∧ (Backend.random_uniform shape boundaries dtype (Some s) g').1
                = (Backend.random_uniform shape boundaries dtype (Some s) g).1.
Proof.
  split_and!.
  - reflexivity.
  - reflexivity.
  - unfold Backend.randn. cbn [Backend.seeded Backend.not_seed Backend.randint].
    by repeat case_decide.
  - unfold Backend.random_uniform.
    cbn [Backend.seeded Backend.not_seed Backend.randint].
    by repeat case_decide.
  - intros s Hs.
    unfold Backend.randn, Backend.random_uniform.
    rewrite (seeded_nonzero s g Hs). split_and!.
    + by repeat case_decide.
    + by repeat case_decide.
    + intros g'. rewrite (seeded_nonzero s g' Hs).
      split; by repeat case_decide.
Qed.



(** * The further properties at sample inputs *)

Lemma eigs_applies_iff_witness :
  ("LM" ∉ ["SI"; "LI"; "SM"; "SR"]) ∧ (0 ≤ 0)%Z
  ∧ isinstance_jnp_ndarray (jax_array vec3) = true
  ∧ ∃ r st', eigs A1 None (Some (jax_array vec3)) None None 0 0 tol_1e8 "LM"
               0 startup = (inr r, st').
Proof.
  assert ("LM" ∉ ["SI"; "LI"; "SM"; "SR"]) as Hw.
  { by apply (bool_decide_eq_false_1 ("LM" ∈ ["SI"; "LI"; "SM"; "SR"])). }
  assert (0 ≤ 0)%Z as Hn by lia.
  split_and!; [exact Hw|exact Hn|reflexivity|].
  exact (proj2 (eigs_applies_iff A1 None (Some (jax_array vec3)) None None 0
                  0 tol_1e8 "LM" 0 startup) (conj Hw (conj Hn eq_refl))).
Defined.

Lemma eigsh_lanczos_applies_iff_witness :
  (1 ≤ 20)%Z ∧ ((1 ≤ 1)%Z ∨ truthy None = true)
  ∧ (∃ r st', eigsh_lanczos A1 None None (Some [3]) (Some float64) 20 1
                tol_1e8 tol_1e8 10 None startup = (inr r, st')).
Proof.
  assert (1 ≤ 20)%Z as Hn by lia.
  assert ((1 ≤ 1)%Z ∨ truthy None = true) as Hr by (left; lia).
  split_and!; [exact Hn|exact Hr|].
  apply (proj2 (eigsh_lanczos_applies_iff A1 None None (Some [3])
                  (Some float64) 20 1 tol_1e8 tol_1e8 10 None startup)).
  split_and!; [exact Hn|exact Hr|by eexists|by eexists].
Defined.

Lemma gmres_sample_valid : gmres_values_valid vec3 None tol_1e5 None None.
Proof. by apply (bool_decide_unpack _). Qed.

Lemma gmres_applies_iff_witness :
  gmres_values_valid vec3 None tol_1e5 None None
  ∧ ∃ r st', gmres A1 vec3 None None None tol_1e5 None None (Some 1%Z) None
               startup = (inr r, st').
Proof.
  split; [exact gmres_sample_valid|].
  apply (proj2 (gmres_applies_iff A1 vec3 None None None tol_1e5 None None
                  (Some 1%Z) None startup)).
  split_and!; [exact gmres_sample_valid|reflexivity|reflexivity].
Defined.





Lemma initial_state_rejections_witness :
  ("LR" ∉ ["SI"; "LI"; "SM"; "SR"]) ∧ (6 ≤ 50)%Z
  ∧ (eigs A1 None (Some (numpy_array vec3)) None None 50 6 tol_1e8 "LR" 20
       startup).1
    = inl (TypeError (expected_jax_array "numpy.ndarray")).
Proof.
  assert ("LR" ∉ ["SI"; "LI"; "SM"; "SR"]) as Hw.
  { by apply (bool_decide_eq_false_1 ("LR" ∈ ["SI"; "LI"; "SM"; "SR"])). }
  assert (6 ≤ 50)%Z as Hn by lia.
  split_and!; [exact Hw|exact Hn|].
  apply (proj1 (initial_state_rejections A1 None (Some (numpy_array vec3))
                  None None 50 6 tol_1e8 "LR" 20 tol_1e8 10 None startup
                  (TypeError (expected_jax_array "numpy.ndarray"))) Hw Hn).
  right. by exists (numpy_array vec3).
Defined.

Lemma exception_classes_witness :
  perform eigs_A2_SM startup
  = (inl (ValueError (which_not_supported "SM")), startup)
  ∧ ValueError (which_not_supported "SM") ≠ KeyError.
Proof.
  assert (perform eigs_A2_SM startup
          = (inl (ValueError (which_not_supported "SM")), startup)) as H
    by reflexivity.
  split; [exact H|].
  exact (proj2 (exception_classes _ _ _ _ H)).
Defined.

Lemma gmres_tolerances_witness :
  (finite 0 = finite 0 ∨ finite 0 = nan)
  ∧ (gmres A1 vec3 None None None (finite 0) None None (Some 1%Z) None
       startup).1
    ≠ inl (ValueError (tol_must_be_positive (finite 0))).
Proof.
  assert (finite 0 = finite 0 ∨ finite 0 = nan) as H by (left; reflexivity).
  split; [exact H|].
  exact (proj2 (proj2 (proj2 (gmres_tolerances A1 vec3 None None None
                                (finite 0) None None (Some 1%Z) None
                                startup))) H (finite 0)).
Defined.

Lemma gmres_empty_b_witness :
  0 ∈ [3; 0]
  ∧ ∃ m, gmres A1 {| shape := [3; 0]; dtype := float64;
                     entries := supplied 7 |}
           None None None tol_1e5 None None (Some 1%Z) None startup
         = (inl (ValueError m), startup).
Proof.
  assert (0 ∈ [3; 0]) as H by (by apply (bool_decide_unpack _)).
  split; [exact H|].
  exact (proj2 (gmres_empty_b A1 {| shape := [3; 0]; dtype := float64;
                                    entries := supplied 7 |}
                  None None None tol_1e5 None None (Some 1%Z) None startup
                  H)).
Defined.

Lemma outcome_independent_of_state_witness :
  (perform eigs_A2_SM startup).1
  = inl (ValueError (which_not_supported "SM"))
  ∧ perform eigs_A2_SM after_eigs_A1
    = (inl (ValueError (which_not_supported "SM")), after_eigs_A1).
Proof.
  assert ((perform eigs_A2_SM startup).1
          = inl (ValueError (which_not_supported "SM"))) as H by reflexivity.
  split; [exact H|].
  exact (proj1 (outcome_independent_of_state eigs_A2_SM startup
                  after_eigs_A1) _ H).
Defined.


Lemma each_entry_point_applies_its_routine_witness :
  ∃ a st', perform gmres_A1 (run [eigs_A1; lanczos_A2] startup) = (inr a, st')
           ∧ routine_of a = gmres_wrapper.
Proof.
  assert (∃ a st', perform gmres_A1 (run [eigs_A1; lanczos_A2] startup)
                   = (inr a, st')) as (a & st' & H).
  { eexists _, _. reflexivity. }
  exists a, st'. split; [exact H|].
  exact (proj2 (proj2 (each_entry_point_applies_its_routine
                         [eigs_A1; lanczos_A2])) _ _ _ H).
Defined.


Lemma expm_accepts_square_matrices_witness :
  Backend.ndim stack233 ≠ 2
  ∧ Backend.expm stack233
    = inl (Backend.ValueError (Backend.expm_only_matrices [2; 3; 3]))
  ∧ Backend.expm mat23
    = inl (Backend.ValueError (Backend.expm_only_N_by_N 2 3)).
Proof.
  assert (Backend.ndim stack233 ≠ 2) as H by (by intros [=]).
  assert (2 ≠ 3) as H23 by lia.
  split_and!; [exact H| |].
  - exact (proj1 (proj2 (expm_accepts_square_matrices stack233)) H).
  - exact (proj2 (proj2 (expm_accepts_square_matrices mat23)) 2 3 eq_refl
             H23).
Defined.

Lemma order_guards_witness :
  Backend.ndim vec3 ≤ 2
  ∧ Backend.inv vec3 = inr (Backend.jnp_linalg_inv (Backend.array vec3))
  ∧ Backend.ndim scalar ≠ 1 ∧ Backend.ndim scalar ≠ 2
  ∧ Backend.diag scalar
    = inl (Backend.TypeError Backend.only_one_and_two_dimensional_tensors).
Proof.
  assert (Backend.ndim vec3 ≤ 2) as H by (cbn; lia).
  assert (Backend.ndim scalar ≠ 1) as H1 by (by intros [=]).
  assert (Backend.ndim scalar ≠ 2) as H2 by (by intros [=]).
  split_and!; [exact H| |exact H1|exact H2|].
  - exact (proj2 (proj1 (order_guards vec3 vec3 [] [])) H).
  - exact (proj1 (proj2 (proj2 (proj2 (order_guards scalar scalar [] []))))
             H1 H2).
Defined.



Lemma seed_zero_is_no_seed_witness :
  (5 ≠ 0)%Z
  ∧ Backend.randn [3] None (Some 5%Z) numpy_random
    = (Backend.astype
         (Backend.random_normal (Backend.PRNGKey 5) [3] None) float64,
       numpy_random)
  ∧ (Backend.randn [3] None (Some 0%Z) numpy_random).1
    = Backend.astype (Backend.random_normal (Backend.PRNGKey 7) [3] None)
        float64.
Proof.
  assert (5 ≠ 0)%Z as H by lia.
  split_and!; [exact H| |].
  - destruct (proj2 (proj2 (proj2 (proj2 (seed_zero_is_no_seed [3] None None
                                            numpy_random)))) 5%Z H)
      as (Hg & _ & _).
    destruct (Backend.randn [3] None (Some 5%Z) numpy_random) as [t g] eqn:E.
    cbn in Hg. rewrite Hg. f_equal.
    change t with (t, g).1. rewrite <- E. reflexivity.
  - rewrite (proj1 (seed_zero_is_no_seed [3] None None numpy_random)).
    reflexivity.
Defined.

